(** * Undercity: drone light-show designer

    A shallow embedding of the waypoint-sequence core of the application:
    the page-level sequence store (src/app/page.tsx), the drawing canvas and
    its draft (src/components/drawing-canvas.tsx), the pattern generators and
    the colour conversion of the settings panel, and the path renderer and
    playback interpolator of the 3D preview (both in src/unnamed/part_000).

    JavaScript numbers are embedded as exact rationals extended with the
    three non-finite values.  Binary64 rounding and the sign of zero are not
    represented: a finite result is the exact one. *)

From Stdlib Require Import QArith Qround Qabs ZArith String DecimalString.
From Stdlib Require Import List Bool Lia Lqa.
Import ListNotations.

(* ------------------------------------------------------------------ *)
(** ** JavaScript numbers *)

Inductive number : Type :=
| Fin (q : Q)
| PInf
| NInf
| NaN.

Declare Scope js_scope.
Delimit Scope js_scope with js.
Bind Scope js_scope with number.

Definition number_of_Z (n : Z) : number := Fin (inject_Z n).

Definition number_to_Z (v : number) : option Z :=
  match v with
  | Fin (Qmake a 1) => Some a
  | _ => None
  end.

Number Notation number number_of_Z number_to_Z : js_scope.

Definition of_nat (n : nat) : number := Fin (inject_Z (Z.of_nat n)).

(** [Number.isFinite] *)
Definition isFinite (v : number) : bool :=
  match v with
  | Fin _ => true
  | _ => false
  end.

Definition neg (v : number) : number :=
  match v with
  | Fin a => Fin (- a)
  | PInf => NInf
  | NInf => PInf
  | NaN => NaN
  end.

Definition add (v w : number) : number :=
  match v, w with
  | NaN, _ | _, NaN => NaN
  | Fin a, Fin b => Fin (a + b)
  | PInf, NInf | NInf, PInf => NaN
  | PInf, _ | _, PInf => PInf
  | NInf, _ | _, NInf => NInf
  end.

Definition sub (v w : number) : number := add v (neg w).

(** An infinity carrying the sign of a rational; zero gives [NaN]. *)
Definition signed_inf (positive : bool) (a : Q) : number :=
  match a ?= 0 with
  | Eq => NaN
  | Gt => if positive then PInf else NInf
  | Lt => if positive then NInf else PInf
  end.

Definition mul (v w : number) : number :=
  match v, w with
  | NaN, _ | _, NaN => NaN
  | Fin a, Fin b => Fin (a * b)
  | Fin a, PInf | PInf, Fin a => signed_inf true a
  | Fin a, NInf | NInf, Fin a => signed_inf false a
  | PInf, PInf | NInf, NInf => PInf
  | PInf, NInf | NInf, PInf => NInf
  end.

Definition div (v w : number) : number :=
  match v, w with
  | NaN, _ | _, NaN => NaN
  | Fin a, Fin b => if Qeq_bool b 0 then signed_inf true a else Fin (a / b)
  | Fin _, _ => Fin 0
  | PInf, Fin b => if Qle_bool 0 b then PInf else NInf
  | NInf, Fin b => if Qle_bool 0 b then NInf else PInf
  | _, _ => NaN
  end.

(** Rounding towards zero, as the quotient of [%] is taken. *)
Definition Qtrunc (a : Q) : Z :=
  if Qle_bool 0 a then Qfloor a else Qceiling a.

(** The remainder operator [%]: the result has the sign of the dividend. *)
Definition rem (v w : number) : number :=
  match v, w with
  | Fin a, Fin b =>
      if Qeq_bool b 0 then NaN else Fin (a - b * inject_Z (Qtrunc (a / b)))
  | Fin a, PInf => Fin a
  | Fin a, NInf => Fin a
  | _, _ => NaN
  end.

Definition ltb (v w : number) : bool :=
  match v, w with
  | NaN, _ | _, NaN => false
  | Fin a, Fin b => negb (Qle_bool b a)
  | Fin _, PInf | NInf, Fin _ | NInf, PInf => true
  | Fin _, NInf | PInf, _ | NInf, NInf => false
  end.

Definition leb (v w : number) : bool :=
  match v, w with
  | NaN, _ | _, NaN => false
  | Fin a, Fin b => Qle_bool a b
  | Fin _, PInf | NInf, _ | PInf, PInf => true
  | Fin _, NInf | PInf, _ => false
  end.

Notation "v + w" := (add v w) : js_scope.
Notation "v - w" := (sub v w) : js_scope.
Notation "v * w" := (mul v w) : js_scope.
Notation "v / w" := (div v w) : js_scope.
Notation "v 'mod' w" := (rem v w) (at level 40, no associativity) : js_scope.
Notation "v <? w" := (ltb v w) : js_scope.
Notation "v <=? w" := (leb v w) : js_scope.

Definition Math_abs (v : number) : number :=
  match v with
  | Fin a => Fin (Qabs a)
  | PInf | NInf => PInf
  | NaN => NaN
  end.

Definition Math_floor (v : number) : number :=
  match v with
  | Fin a => Fin (inject_Z (Qfloor a))
  | _ => v
  end.

(** [Math.round]: the nearest integer, halves going up. *)
Definition Math_round (v : number) : number :=
  match v with
  | Fin a => Fin (inject_Z (Qfloor (a + (1 # 2))))
  | _ => v
  end.

Definition max2 (v w : number) : number :=
  match v, w with
  | NaN, _ | _, NaN => NaN
  | _, _ => if leb v w then w else v
  end.

(** [Math.max(...l)]; the maximum of no argument is [-Infinity]. *)
Definition Math_max (l : list number) : number := fold_left max2 l NInf.

(** The value denoted, up to the representation of the rational. *)
Definition same (v w : number) : Prop :=
  match v, w with
  | Fin a, Fin b => a == b
  | PInf, PInf | NInf, NInf | NaN, NaN => True
  | _, _ => False
  end.

Notation "v == w" := (same v w) (at level 70, no associativity) : js_scope.

Definition Vec3 : Type := number * number * number.

Definition same3 (p q : Vec3) : Prop :=
  let '(a, b, c) := p in
  let '(a', b', c') := q in
  (a == a')%js /\ (b == b')%js /\ (c == c')%js.

(** Reading [l[i]]: [undefined] ([None]) unless [i] is an index of [l]. *)
Definition index {A : Type} (l : list A) (i : number) : option A :=
  match i with
  | Fin a =>
      if Qeq_bool (inject_Z (Qfloor a)) a && (0 <=? Qfloor a)%Z
      then nth_error l (Z.to_nat (Qfloor a))
      else None
  | _ => None
  end.

(** [a || b] on possibly-undefined objects. *)
Definition or_else {A : Type} (a b : option A) : option A :=
  match a with
  | Some _ => a
  | None => b
  end.

(* ------------------------------------------------------------------ *)
(** ** Data model (src/app/page.tsx) *)

Record Rgb : Type := { r : number; g : number; b : number }.

Record DronePoint : Type := {
  x : number;
  y : number;
  z : number;
  color : string;
  rgb : Rgb;
  brightness : number;
  timestamp : number;
  speed : option number;
  transitionDuration : option number
}.

Record DroneSequence : Type := {
  id : string;
  name : string;
  points : list DronePoint;
  duration : number
}.

Open Scope js_scope.

(** [toast({...})]: a notice shown to the operator. *)
Record Toast : Type := {
  title : string;
  description : string;
  variant : option string
}.

(** [Partial<DroneSequence>] *)
Record PartialSequence : Type := {
  id_opt : option string;
  name_opt : option string;
  points_opt : option (list DronePoint);
  duration_opt : option number
}.

Definition partial (s : DroneSequence) : PartialSequence :=
  {| id_opt := Some (id s);
     name_opt := Some (name s);
     points_opt := Some (points s);
     duration_opt := Some (duration s) |}.

Definition from_option {A : Type} (o : option A) (d : A) : A :=
  match o with
  | Some a => a
  | None => d
  end.

(** [{ ...seq, ...updates }] *)
Definition spread (seq : DroneSequence) (updates : PartialSequence)
  : DroneSequence :=
  {| id := from_option (id_opt updates) (id seq);
     name := from_option (name_opt updates) (name seq);
     points := from_option (points_opt updates) (points seq);
     duration := from_option (duration_opt updates) (duration seq) |}.

(** Truthiness of a [string | null]: [null] and the empty string are falsy. *)
Definition truthy (s : option string) : bool :=
  match s with
  | None => false
  | Some EmptyString => false
  | Some _ => true
  end.

(** [activeSequence === id] *)
Definition is_active (activeSequence : option string) (i : string) : bool :=
  match activeSequence with
  | Some a => String.eqb a i
  | None => false
  end.

(* ------------------------------------------------------------------ *)
(** ** The page: sequence store, active pointer, persistence
       (src/app/page.tsx)

    The state of [DroneLightShow] that the sequence operations touch,
    together with the stored item ["drone-sequences"] (the value last
    serialised there, [None] when the key is absent) and the notices shown.

    A handler is the function from the rendered state to the state of the
    next render.  The effect that saves the collection follows here; the
    effect that loads the stored item, and the renders the two effects lead
    to, follow in the section on the page across renders. *)

Record Page : Type := {
  sequences : list DroneSequence;
  activeSequence : option string;
  currentDrawingColor : string;
  currentDrawingRgb : Rgb;
  previewSequence : option DroneSequence;
  localStorage : option (list DroneSequence);
  toasts : list Toast
}.

Definition setSequences (f : list DroneSequence -> list DroneSequence)
  (p : Page) : Page :=
  {| sequences := f (sequences p);
     activeSequence := activeSequence p;
     currentDrawingColor := currentDrawingColor p;
     currentDrawingRgb := currentDrawingRgb p;
     previewSequence := previewSequence p;
     localStorage := localStorage p;
     toasts := toasts p |}.

Definition setActiveSequence (a : option string) (p : Page) : Page :=
  {| sequences := sequences p;
     activeSequence := a;
     currentDrawingColor := currentDrawingColor p;
     currentDrawingRgb := currentDrawingRgb p;
     previewSequence := previewSequence p;
     localStorage := localStorage p;
     toasts := toasts p |}.

Definition setPreviewSequence (s : option DroneSequence) (p : Page) : Page :=
  {| sequences := sequences p;
     activeSequence := activeSequence p;
     currentDrawingColor := currentDrawingColor p;
     currentDrawingRgb := currentDrawingRgb p;
     previewSequence := s;
     localStorage := localStorage p;
     toasts := toasts p |}.

(** [localStorage.setItem("drone-sequences", JSON.stringify(v))] *)
Definition setItem (v : list DroneSequence) (p : Page) : Page :=
  {| sequences := sequences p;
     activeSequence := activeSequence p;
     currentDrawingColor := currentDrawingColor p;
     currentDrawingRgb := currentDrawingRgb p;
     previewSequence := previewSequence p;
     localStorage := Some v;
     toasts := toasts p |}.

Definition toast (t : Toast) (p : Page) : Page :=
  {| sequences := sequences p;
     activeSequence := activeSequence p;
     currentDrawingColor := currentDrawingColor p;
     currentDrawingRgb := currentDrawingRgb p;
     previewSequence := previewSequence p;
     localStorage := localStorage p;
     toasts := (toasts p ++ [t])%list |}.

(** The effect depending on [sequences]: "Save sequences to localStorage
    whenever they change". *)
Definition saveSequencesEffect (p : Page) : Page :=
  if (0 <? length (sequences p))%nat then setItem (sequences p) p else p.

Definition addSequence (sequence : DroneSequence) (p : Page) : Page :=
  let p1 := setSequences (fun prev => (prev ++ [sequence])%list) p in
  let p2 :=
    if negb (truthy (activeSequence p))
    then setActiveSequence (Some (id sequence)) p1
    else p1 in
  setPreviewSequence None p2.

Definition updateSequence (i : string) (updates : PartialSequence) (p : Page)
  : Page :=
  let p1 :=
    setSequences
      (fun prev =>
         map (fun seq => if String.eqb (id seq) i then spread seq updates else seq)
             prev) p in
  setPreviewSequence None p1.

(** The updater of [setSequences] receives the collection that was rendered,
    the one [remainingSequences] is computed from. *)
Definition deleteSequence (i : string) (p : Page) : Page :=
  let p1 :=
    setSequences
      (fun prev => filter (fun seq => negb (String.eqb (id seq) i)) prev) p in
  let p2 :=
    if is_active (activeSequence p) i then
      let remainingSequences :=
        filter (fun seq => negb (String.eqb (id seq) i)) (sequences p) in
      setActiveSequence
        (match remainingSequences with
         | first :: _ => Some (id first)
         | [] => None
         end) p1
    else p1 in
  toast {| title := "Sequence Deleted";
           description := "The sequence has been removed successfully";
           variant := None |} p2.

Definition handlePreviewSequence (sequence : DroneSequence) (p : Page) : Page :=
  setPreviewSequence (Some sequence) p.

Definition clearPreview (p : Page) : Page := setPreviewSequence None p.

(** [sequences.find((seq) => seq.id === activeSequence)] *)
Definition activeSeq (p : Page) : option DroneSequence :=
  find (fun seq => is_active (activeSequence p) (id seq)) (sequences p).

(** A mutation of the collection as the next commit leaves it: each of
    [addSequence], [updateSequence] and [deleteSequence] installs a newly
    built array, so the effect depending on [sequences] runs after it. *)
Definition committed (mutation : Page -> Page) (p : Page) : Page :=
  saveSequencesEffect (mutation p).

(* ------------------------------------------------------------------ *)
(** ** The drawing canvas and its draft
       (src/components/drawing-canvas.tsx) *)

Record Canvas : Type := {
  currentAltitude : number;
  sequenceName : string;
  showWaypoints : bool;
  unsavedPoints : list DronePoint;
  hasUnsavedChanges : bool
}.

(** The page and the canvas it renders. *)
Record App : Type := {
  page : Page;
  canvas : Canvas
}.

Definition canvasWidth : number := 400.
Definition canvasHeight : number := 300.

Definition initialCanvas : Canvas :=
  {| currentAltitude := 20;
     sequenceName := "New Sequence";
     showWaypoints := true;
     unsavedPoints := [];
     hasUnsavedChanges := false |}.

Definition setUnsavedPoints (f : list DronePoint -> list DronePoint)
  (c : Canvas) : Canvas :=
  {| currentAltitude := currentAltitude c;
     sequenceName := sequenceName c;
     showWaypoints := showWaypoints c;
     unsavedPoints := f (unsavedPoints c);
     hasUnsavedChanges := hasUnsavedChanges c |}.

Definition setSequenceName (n : string) (c : Canvas) : Canvas :=
  {| currentAltitude := currentAltitude c;
     sequenceName := n;
     showWaypoints := showWaypoints c;
     unsavedPoints := unsavedPoints c;
     hasUnsavedChanges := hasUnsavedChanges c |}.

Definition setHasUnsavedChanges (v : bool) (c : Canvas) : Canvas :=
  {| currentAltitude := currentAltitude c;
     sequenceName := sequenceName c;
     showWaypoints := showWaypoints c;
     unsavedPoints := unsavedPoints c;
     hasUnsavedChanges := v |}.

(** The effect depending on the [sequence] prop. *)
Definition sequenceEffect (sequence : option DroneSequence) (c : Canvas)
  : Canvas :=
  match sequence with
  | Some s =>
      setHasUnsavedChanges false
        (setSequenceName (name s) (setUnsavedPoints (fun _ => points s) c))
  | None => setHasUnsavedChanges false (setUnsavedPoints (fun _ => []) c)
  end.

(** The effect depending on the [previewSequence] prop:
    "Handle preview sequence". *)
Definition previewSequenceEffect (preview : option DroneSequence) (c : Canvas)
  : Canvas :=
  match preview with
  | Some s =>
      setHasUnsavedChanges true
        (setSequenceName (name s) (setUnsavedPoints (fun _ => points s) c))
  | None => c
  end.

(** The pixel at which [drawWaypoints] puts a waypoint on either plane. *)
Definition waypointPixel (isFrontView : bool) (point : DronePoint)
  : number * number :=
  (x point, if isFrontView then canvasHeight - z point * 3 else y point).

(** The polyline [drawWaypoints] strokes; nothing is drawn when waypoints are
    hidden or there is none. *)
Definition drawWaypoints (c : Canvas) (pts : list DronePoint)
  (isFrontView : bool) : list (number * number) :=
  if negb (showWaypoints c) || (length pts =? 0)%nat then []
  else map (waypointPixel isFrontView) pts.

(** What [handleCanvasClick] reads from the mouse event and its canvas. *)
Record MouseEvent : Type := {
  clientX : number;
  clientY : number;
  rect_left : number;
  rect_top : number;
  rect_width : number;
  rect_height : number;
  canvas_width : number;
  canvas_height : number
}.

(** The click in canvas coordinates, after undoing the CSS scaling. *)
Definition canvasCoordinates (e : MouseEvent) : number * number :=
  let scaleX := canvas_width e / rect_width e in
  let scaleY := canvas_height e / rect_height e in
  let rawX := clientX e - rect_left e in
  let rawY := clientY e - rect_top e in
  (rawX * scaleX, rawY * scaleY).

(** The waypoint a click at canvas coordinates [(cx, cy)] creates. *)
Definition newPoint (cx cy : number) (isFrontView : bool)
  (altitude : number) (currentColor : string) (currentRgb : Rgb)
  (now : number) : DronePoint :=
  {| x := cx;
     y := if isFrontView then canvasHeight / 2 else cy;
     z := if isFrontView
          then Math_max [0; (canvasHeight - cy) / 3]
          else altitude;
     color := currentColor;
     rgb := currentRgb;
     brightness := Fin (8 # 10);
     timestamp := now;
     speed := Some 5;
     transitionDuration := Some 500 |}.

(** [now] is the value of [Date.now()] at the click.  The preview prop is
    [null] in the commit that follows, so its effect (if it runs) leaves the
    draft alone; the [sequence] prop is the same object as before. *)
Definition handleCanvasClick (e : MouseEvent) (isFrontView : bool)
  (now : number) (a : App) : App :=
  let pg :=
    match previewSequence (page a) with
    | Some _ => clearPreview (page a)
    | None => page a
    end in
  let '(cx, cy) := canvasCoordinates e in
  let point :=
    newPoint cx cy isFrontView (currentAltitude (canvas a))
      (currentDrawingColor (page a)) (currentDrawingRgb (page a)) now in
  let c1 := setUnsavedPoints (fun prev => (prev ++ [point])%list) (canvas a) in
  let c2 := setHasUnsavedChanges true c1 in
  {| page := pg; canvas := previewSequenceEffect (previewSequence pg) c2 |}.

Definition clearCanvas (a : App) : App :=
  let c := setHasUnsavedChanges false
             (setUnsavedPoints (fun _ => []) (canvas a)) in
  let pg := clearPreview (page a) in
  {| page := toast {| title := "Canvas Cleared";
                      description := "All waypoints have been removed";
                      variant := None |} pg;
     canvas := c |}.

Definition createNewSequence (a : App) : App :=
  let c := setHasUnsavedChanges false
             (setSequenceName "New Sequence"
                (setUnsavedPoints (fun _ => []) (canvas a))) in
  let pg := clearPreview (page a) in
  {| page := toast {| title := "New Sequence Started";
                      description := "Ready to create a new flight path";
                      variant := None |} pg;
     canvas := c |}.

Definition handleSequenceNameChange (n : string) (a : App) : App :=
  let c := setSequenceName n (canvas a) in
  {| page := page a;
     canvas :=
       match activeSeq (page a) with
       | Some s =>
           if negb (String.eqb n (name s)) then setHasUnsavedChanges true c
           else c
       | None => c
       end |}.

(* ------------------------------------------------------------------ *)
(** ** Settings panel: colour conversion and pattern generators *)

Definition hslToRgb (h s l : number) : Rgb :=
  let h := h / 360 in
  let s := s / 100 in
  let l := l / 100 in
  let c := (1 - Math_abs (2 * l - 1)) * s in
  let x := c * (1 - Math_abs (((h * 6) mod 2) - 1)) in
  let m := l - c / 2 in
  let '(r, g, b) :=
    if (0 <=? h) && (h <? 1 / 6) then (c, x, 0)
    else if (1 / 6 <=? h) && (h <? 2 / 6) then (x, c, 0)
    else if (2 / 6 <=? h) && (h <? 3 / 6) then (0, c, x)
    else if (3 / 6 <=? h) && (h <? 4 / 6) then (0, x, c)
    else if (4 / 6 <=? h) && (h <? 5 / 6) then (x, 0, c)
    else if (5 / 6 <=? h) && (h <? 1) then (c, 0, x)
    else (0, 0, 0) in
  {| r := Math_round ((r + m) * 255);
     g := Math_round ((g + m) * 255);
     b := Math_round ((b + m) * 255) |}.


(** [l.map((v, index) => f(index, v))], with the first index [start]. *)
Fixpoint mapi_from {A B : Type} (start : nat) (f : nat -> A -> B) (l : list A)
  : list B :=
  match l with
  | [] => []
  | v :: l' => f start v :: mapi_from (S start) f l'
  end.

Definition mapi {A B : Type} (f : nat -> A -> B) (l : list A) : list B :=
  mapi_from 0 f l.

Module FlightSettings.
Record t : Type := {
  maxAltitude : number;
  maxSpeed : number;
  safetyRadius : number;
  smoothPath : bool;
  autoOptimize : bool;
  batteryMonitoring : bool
}.
End FlightSettings.

Module LedSettings.
Record t : Type := {
  brightness : number;
  transitionSpeed : number;
  strobeMode : bool
}.
End LedSettings.

Definition initialFlightSettings : FlightSettings.t :=
  {| FlightSettings.maxAltitude := 50;
     FlightSettings.maxSpeed := 10;
     FlightSettings.safetyRadius := 50;
     FlightSettings.smoothPath := true;
     FlightSettings.autoOptimize := false;
     FlightSettings.batteryMonitoring := true |}.

Definition initialLedSettings : LedSettings.t :=
  {| LedSettings.brightness := 80;
     LedSettings.transitionSpeed := 500;
     LedSettings.strobeMode := false |}.

Definition CANVAS_CENTER_X : number := 200.
Definition CANVAS_CENTER_Y : number := 150.

(** A generated sequence reaches the canvas through [onPreviewSequence]: the
    page stores it, and the canvas effect on the new preview loads it as the
    draft. *)
Definition onPreviewSequence (sequence : DroneSequence) (a : App) : App :=
  {| page := handlePreviewSequence sequence (page a);
     canvas := previewSequenceEffect (Some sequence) (canvas a) |}.

Section Runtime.

(** What the JavaScript runtime supplies: the printing of a number in a
    template literal or by [toString], and the [Math] functions and
    constant the generators call. *)
Variable Number_toString : number -> string.
Variable Math_cos Math_sin : number -> number.
Variable Math_PI : number.

Variable flightSettings : FlightSettings.t.
Variable ledSettings : LedSettings.t.

(** *** Saving the draft (drawing-canvas.tsx) *)

(** The [newSequence] object [saveSequence] builds. *)
Definition newSequence (sequence : option DroneSequence) (now : number)
  (c : Canvas) : DroneSequence :=
  {| id := match sequence with
           | Some s =>
               if truthy (Some (id s)) then id s else Number_toString now
           | None => Number_toString now
           end;
     name := sequenceName c;
     points := unsavedPoints c;
     duration :=
       if (0 <? length (unsavedPoints c))%nat
       then Math_max (map timestamp (unsavedPoints c)) + 1000
       else 0 |}.

Definition savedDescription (c : Canvas) : string :=
  (String (Ascii.ascii_of_nat 34) (sequenceName c)
   ++ String (Ascii.ascii_of_nat 34) " has been saved with "
   ++ Number_toString (of_nat (length (unsavedPoints c)))
   ++ " waypoints")%string.

(** [now] is the value of [Date.now()].  After a save that went through,
    the commit runs the persistence effect, and the effect on the
    [sequence] prop when the active sequence object was replaced or
    appeared. *)
Definition saveSequence (now : number) (a : App) : App :=
  if (length (unsavedPoints (canvas a)) =? 0)%nat then
    {| page := toast {| title := "No Points to Save";
                        description := "Add some waypoints before saving";
                        variant := Some "destructive"%string |} (page a);
       canvas := canvas a |}
  else
    let sequence := activeSeq (page a) in
    let saved := newSequence sequence now (canvas a) in
    let c1 := setHasUnsavedChanges false (canvas a) in
    match sequence with
    | Some _ =>
        let notice := {| title := "Sequence Updated";
                         description := savedDescription (canvas a);
                         variant := None |} in
        match activeSequence (page a) with
        | Some active =>
            if truthy (Some active) then
              let pg :=
                clearPreview
                  (toast notice
                     (committed (updateSequence active (partial saved))
                        (page a))) in
              {| page := pg; canvas := sequenceEffect (activeSeq pg) c1 |}
            else
              {| page := clearPreview (toast notice (page a)); canvas := c1 |}
        | None =>
            {| page := clearPreview (toast notice (page a)); canvas := c1 |}
        end
    | None =>
        let notice := {| title := "New Sequence Created";
                         description := savedDescription (canvas a);
                         variant := None |} in
        let pg :=
          clearPreview
            (toast notice (committed (addSequence saved) (page a))) in
        {| page := pg;
           canvas := match activeSeq pg with
                     | Some s => sequenceEffect (Some s) c1
                     | None => c1
                     end |}
    end.

(** *** Pattern generators (settings panel) *)

Definition circlePattern (now : number) (timeString : string)
  : DroneSequence :=
  let radius := 60 in
  let numPoints := 12%nat in
  let altitude := 15 in
  let points :=
    map (fun k : nat =>
           let i := of_nat k in
           let angle := (i / of_nat numPoints) * 2 * Math_PI in
           let x := CANVAS_CENTER_X + Math_cos angle * radius in
           let y := CANVAS_CENTER_Y + Math_sin angle * radius in
           let hue := (i / of_nat numPoints) * 360 in
           let color :=
             ("hsl(" ++ Number_toString hue ++ ", 70%, 50%)")%string in
           let rgb := hslToRgb hue 70 50 in
           {| x := x;
              y := y;
              z := altitude;
              color := color;
              rgb := rgb;
              brightness := LedSettings.brightness ledSettings / 100;
              timestamp := i * 1000;
              speed := Some (FlightSettings.maxSpeed flightSettings);
              transitionDuration :=
                Some (LedSettings.transitionSpeed ledSettings) |})
        (seq 0 numPoints) in
  {| id := ("circle-preview-" ++ Number_toString now)%string;
     name := ("Circle Pattern " ++ timeString)%string;
     points := points;
     duration := of_nat (length points) * 1000 |}.

Definition figure8Pattern (now : number) (timeString : string)
  : DroneSequence :=
  let width := 70 in
  let height := 50 in
  let numPoints := 20%nat in
  let altitude := 18 in
  let points :=
    map (fun k : nat =>
           let i := of_nat k in
           let t := (i / of_nat numPoints) * 4 * Math_PI in
           let x := CANVAS_CENTER_X + Math_sin t * width in
           let y := CANVAS_CENTER_Y + Math_sin (t * 2) * height in
           let progress := i / of_nat numPoints in
           let hue := (progress * 720) mod 360 in
           let color :=
             ("hsl(" ++ Number_toString hue ++ ", 80%, 60%)")%string in
           let rgb := hslToRgb hue 80 60 in
           {| x := x;
              y := y;
              z := altitude + Math_sin t * 3;
              color := color;
              rgb := rgb;
              brightness := LedSettings.brightness ledSettings / 100;
              timestamp := i * 800;
              speed := Some (FlightSettings.maxSpeed flightSettings);
              transitionDuration :=
                Some (LedSettings.transitionSpeed ledSettings) |})
        (seq 0 numPoints) in
  {| id := ("figure8-preview-" ++ Number_toString now)%string;
     name := ("Figure-8 Pattern " ++ timeString)%string;
     points := points;
     duration := of_nat (length points) * 800 |}.

Definition spiralPattern (now : number) (timeString : string)
  : DroneSequence :=
  let maxRadius := 80 in
  let numPoints := 24%nat in
  let maxAltitude := 25 in
  let points :=
    map (fun k : nat =>
           let i := of_nat k in
           let progress := i / of_nat numPoints in
           let angle := progress * 6 * Math_PI in
           let radius := progress * maxRadius in
           let x := CANVAS_CENTER_X + Math_cos angle * radius in
           let y := CANVAS_CENTER_Y + Math_sin angle * radius in
           let z := 5 + progress * maxAltitude in
           let hue := 240 - progress * 240 in
           let color :=
             ("hsl(" ++ Number_toString hue ++ ", 90%, 55%)")%string in
           let rgb := hslToRgb hue 90 55 in
           {| x := x;
              y := y;
              z := z;
              color := color;
              rgb := rgb;
              brightness :=
                (LedSettings.brightness ledSettings / 100)
                * (Fin (7 # 10) + progress * Fin (3 # 10));
              timestamp := i * 600;
              speed :=
                Some (FlightSettings.maxSpeed flightSettings
                      * (Fin (5 # 10) + progress * Fin (5 # 10)));
              transitionDuration :=
                Some (LedSettings.transitionSpeed ledSettings) |})
        (seq 0 numPoints) in
  {| id := ("spiral-preview-" ++ Number_toString now)%string;
     name := ("Spiral Pattern " ++ timeString)%string;
     points := points;
     duration := of_nat (length points) * 600 |}.

Definition formations : list (list (number * number)) :=
  [ [ (CANVAS_CENTER_X, CANVAS_CENTER_Y - 30);
      (CANVAS_CENTER_X + 30, CANVAS_CENTER_Y);
      (CANVAS_CENTER_X, CANVAS_CENTER_Y + 30);
      (CANVAS_CENTER_X - 30, CANVAS_CENTER_Y) ];
    [ (CANVAS_CENTER_X - 45, CANVAS_CENTER_Y);
      (CANVAS_CENTER_X - 15, CANVAS_CENTER_Y);
      (CANVAS_CENTER_X + 15, CANVAS_CENTER_Y);
      (CANVAS_CENTER_X + 45, CANVAS_CENTER_Y) ];
    [ (CANVAS_CENTER_X, CANVAS_CENTER_Y - 15);
      (CANVAS_CENTER_X - 20, CANVAS_CENTER_Y);
      (CANVAS_CENTER_X + 20, CANVAS_CENTER_Y);
      (CANVAS_CENTER_X - 35, CANVAS_CENTER_Y + 15) ] ].

Definition formationPattern (now : number) (timeString : string)
  : DroneSequence :=
  let points :=
    concat
      (mapi (fun fi formation =>
               mapi (fun pi (pos : number * number) =>
                       let formationIndex := of_nat fi in
                       let posIndex := of_nat pi in
                       let timeOffset :=
                         formationIndex * 4000 + posIndex * 200 in
                       let hue :=
                         (formationIndex * 120 + posIndex * 60) mod 360 in
                       let color :=
                         ("hsl(" ++ Number_toString hue
                          ++ ", 75%, 50%)")%string in
                       let rgb := hslToRgb hue 75 50 in
                       {| x := fst pos;
                          y := snd pos;
                          z := 20 + formationIndex * 8;
                          color := color;
                          rgb := rgb;
                          brightness :=
                            LedSettings.brightness ledSettings / 100;
                          timestamp := timeOffset;
                          speed :=
                            Some (FlightSettings.maxSpeed flightSettings);
                          transitionDuration :=
                            Some (LedSettings.transitionSpeed ledSettings)
                       |})
                    formation)
            formations) in
  {| id := ("formation-preview-" ++ Number_toString now)%string;
     name := ("Formation Flying " ++ timeString)%string;
     points := points;
     duration := 14000 |}.

(** The notice each generator shows after handing over its preview. *)
Definition generatedToast (heading : string) (s : DroneSequence) : Toast :=
  {| title := heading;
     description :=
       ("Preview created with "
        ++ Number_toString (of_nat (length (points s)))
        ++ " waypoints. Save to keep it.")%string;
     variant := None |}.

Definition generated (heading : string) (s : DroneSequence) (a : App)
  : App :=
  let a' := onPreviewSequence s a in
  {| page := toast (generatedToast heading s) (page a');
     canvas := canvas a' |}.

Definition generateCirclePattern (now : number) (timeString : string)
  : App -> App :=
  generated "Circle Pattern Generated" (circlePattern now timeString).

Definition generateFigure8Pattern (now : number) (timeString : string)
  : App -> App :=
  generated "Figure-8 Pattern Generated" (figure8Pattern now timeString).

Definition generateSpiralPattern (now : number) (timeString : string)
  : App -> App :=
  generated "Spiral Pattern Generated" (spiralPattern now timeString).

Definition generateFormationPattern (now : number) (timeString : string)
  : App -> App :=
  generated "Formation Pattern Generated" (formationPattern now timeString).

End Runtime.

(* ------------------------------------------------------------------ *)
(** ** The 3D preview: path renderer and playback (flight-preview) *)

(** "Ensures a point has only finite numbers" *)
Definition isFinitePoint (p : Vec3) : bool :=
  let '(p0, p1, p2) := p in
  isFinite p0 && isFinite p1 && isFinite p2.

(** A numbered sphere on the path; its colour is read from the sequence at
    the marker's own index. *)
Record Marker : Type := {
  position : Vec3;
  markerColor : option string;
  label : nat
}.

(** The group [FlightPath] renders: a line through [line] and a marker at
    each of its points. *)
Record PathGroup : Type := {
  line : list Vec3;
  lineColor : string;
  markers : list Marker
}.

(** The display coordinates [FlightPath] gives a waypoint. *)
Definition displayCoordinates (p : DronePoint) : Vec3 :=
  ((x p - 200) / 20, z p / 10, (y p - 150) / 20).

(** [None] is the [null] returned when there is nothing to draw. *)
Definition FlightPath (sequence : DroneSequence) (isActive : bool)
  : option PathGroup :=
  let rawPts := map displayCoordinates (points sequence) in
  let pts := filter isFinitePoint rawPts in
  if (length pts <? 2)%nat then None
  else
    Some {| line := pts;
            lineColor := if isActive then "#3b82f6" else "#9ca3af";
            markers :=
              mapi (fun idx pt =>
                      {| position := pt;
                         markerColor :=
                           option_map color (nth_error (points sequence) idx);
                         label := idx + 1 |})
                   pts |}.

(** The sequence [Scene] shows: the one selected in the preview if any, else
    the active one. *)
Definition displaySequence (seqs : list DroneSequence)
  (selectedSequence active : option string) : option DroneSequence :=
  if truthy selectedSequence
  then find (fun seq => is_active selectedSequence (id seq)) seqs
  else find (fun seq => is_active active (id seq)) seqs.

(** [THREE.MathUtils.lerp] of three.js. *)
Definition lerp (v w t : number) : number := (1 - t) * v + t * w.

(** The position playback gives a waypoint: its display coordinates, two
    units above the path. *)
Definition dronePosition (p : DronePoint) : Vec3 :=
  ((x p - 200) / 20, z p / 10 + 2, (y p - 150) / 20).

(** [None] stands for the [TypeError] raised when [nextPoint] is undefined. *)
Definition getCurrentPosition (shown : option DroneSequence)
  (currentTime : number) : option Vec3 :=
  match shown with
  | None => Some (0, 3, 0)
  | Some ds =>
      if (length (points ds) =? 0)%nat then Some (0, 3, 0)
      else
        let totalDuration := duration ds in
        let progress := (currentTime mod totalDuration) / totalDuration in
        let totalPoints := length (points ds) in
        if (totalPoints =? 1)%nat then
          option_map dronePosition (index (points ds) 0)
        else
          let segmentProgress := progress * (of_nat totalPoints - 1) in
          let segmentIndex := Math_floor segmentProgress in
          let localProgress := segmentProgress - segmentIndex in
          let currentPoint :=
            or_else (index (points ds) segmentIndex) (index (points ds) 0) in
          let nextPoint :=
            or_else (index (points ds) (segmentIndex + 1))
                    (index (points ds) segmentIndex) in
          match currentPoint, nextPoint with
          | Some cp, Some np =>
              let '(cx, cy, cz) := dronePosition cp in
              let '(nx, ny, nz) := dronePosition np in
              Some (lerp cx nx localProgress,
                    lerp cy ny localProgress,
                    lerp cz nz localProgress)
          | _, _ => None
          end
  end.

Definition getCurrentColor (shown : option DroneSequence)
  (currentTime : number) : option string :=
  match shown with
  | None => Some "#ff0000"%string
  | Some ds =>
      if (length (points ds) =? 0)%nat then Some "#ff0000"%string
      else
        let totalDuration := duration ds in
        let progress := (currentTime mod totalDuration) / totalDuration in
        let pointIndex := Math_floor (progress * of_nat (length (points ds))) in
        option_map color
          (or_else (index (points ds) pointIndex) (index (points ds) 0))
  end.

(** [l] keeps some of the elements of [l'], in their order. *)
Inductive Subseq {A : Type} : list A -> list A -> Prop :=
| Subseq_nil : Subseq [] []
| Subseq_skip : forall v l l', Subseq l l' -> Subseq l (v :: l')
| Subseq_keep : forall v l l', Subseq l l' -> Subseq (v :: l) (v :: l').

(* ------------------------------------------------------------------ *)
(** ** The page across renders (src/app/page.tsx)

    After a handler the page renders with the new state and then runs, in
    the order they are declared, the effects whose dependencies changed:
    first the one that loads the stored item (dependencies [toast], which is
    the same function in every render, and [activeSequence]), then the one
    that saves the collection (dependency [sequences]).  An effect reads the
    state that was rendered, and the stored item as it is when the effect
    runs; the state it sets is the state of the next render. *)

(** [Object.is] on two values of the pointer. *)
Definition same_pointer (a a' : option string) : bool :=
  match a, a' with
  | Some v, Some w => String.eqb v w
  | None, None => true
  | _, _ => false
  end.

Definition setStored (v : option (list DroneSequence)) (p : Page) : Page :=
  {| sequences := sequences p;
     activeSequence := activeSequence p;
     currentDrawingColor := currentDrawingColor p;
     currentDrawingRgb := currentDrawingRgb p;
     previewSequence := previewSequence p;
     localStorage := v;
     toasts := toasts p |}.

(** The first effect, "Load saved data from localStorage": what it reads
    from the page [shown] and the stored item, and the state it sets, on
    [next].  The stored item holds a serialised collection or is absent. *)
Definition loadSequencesEffect (shown next : Page) : Page :=
  match localStorage shown with
  | Some parsed =>
      let next1 := setSequences (fun _ => parsed) next in
      match parsed with
      | first :: _ =>
          if negb (truthy (activeSequence shown))
          then setActiveSequence (Some (id first)) next1
          else next1
      | [] => next1
      end
  | None => next
  end.

(** A render: the state shown, and whether the pointer and the collection
    array differ from those of the render before. *)
Record Render : Type := {
  shownPage : Page;
  pointerChanged : bool;
  collectionChanged : bool
}.

(** The render that follows a mutation of the collection: each of the three
    installs a newly built array. *)
Definition afterMutation (mutation : Page -> Page) (p : Page) : Render :=
  {| shownPage := mutation p;
     pointerChanged :=
       negb (same_pointer (activeSequence (mutation p)) (activeSequence p));
     collectionChanged := true |}.

(** The effects of one render and the render they lead to.  The load effect
    runs first and reads the stored item before the save effect writes it;
    [JSON.parse] gives it a new array each time. *)
Definition commit (v : Render) : Render :=
  let cur := shownPage v in
  let queued :=
    if pointerChanged v then loadSequencesEffect cur cur else cur in
  let stored :=
    if collectionChanged v then localStorage (saveSequencesEffect cur)
    else localStorage cur in
  let next := setStored stored queued in
  {| shownPage := next;
     pointerChanged :=
       negb (same_pointer (activeSequence next) (activeSequence cur));
     collectionChanged :=
       pointerChanged v
       && match localStorage cur with Some _ => true | None => false end |}.

(** Renders follow one another until no effect has anything to do; [None]
    if that takes more than [fuel] renders. *)
Fixpoint settle (fuel : nat) (v : Render) : option Page :=
  if pointerChanged v || collectionChanged v then
    match fuel with
    | O => None
    | S fuel' => settle fuel' (commit v)
    end
  else Some (shownPage v).

(* ------------------------------------------------------------------ *)
(** ** What the canvas shows, and the playback clock *)

(** The waypoints [redrawCanvas] shows: the draft if it has any, else those
    of the [sequence] prop. *)
Definition pointsToShow (a : App) : list DronePoint :=
  if (0 <? length (unsavedPoints (canvas a)))%nat then unsavedPoints (canvas a)
  else match activeSeq (page a) with
       | Some s => points s
       | None => []
       end.

(** The polylines [redrawCanvas] strokes on the top-down and on the front
    canvas (both canvases being mounted). *)
Definition redrawCanvas (a : App)
  : list (number * number) * list (number * number) :=
  let shown := pointsToShow a in
  if (0 <? length shown)%nat
  then (drawWaypoints (canvas a) shown false,
        drawWaypoints (canvas a) shown true)
  else ([], []).

(** The updater the playback interval of [FlightPreview] applies to
    [localTime] every 50 ms. *)
Definition tick (shown : option DroneSequence) (prev : number) : number :=
  match shown with
  | Some ds => (prev + 50) mod duration ds
  | None => prev + 50
  end.

(** The active pointer names a sequence of the collection, or nothing. *)
Definition activeValid (p : Page) : Prop :=
  match activeSequence p with
  | Some a => exists s, In s (sequences p) /\ id s = a
  | None => True
  end.

(** Interpolation of two positions, axis by axis. *)
Definition lerp3 (p q : Vec3) (t : number) : Vec3 :=
  let '(p0, p1, p2) := p in
  let '(q0, q1, q2) := q in
  (lerp p0 q0 t, lerp p1 q1 t, lerp p2 q2 t).

(** An integer between 0 and 255. *)
Definition channel (v : number) : Prop :=
  exists n : Z, v = number_of_Z n /\ (0 <= n <= 255)%Z.

(** The collection, the pointer and the stored item of [a'] are those of
    [a]. *)
Definition sameStore (a a' : App) : Prop :=
  sequences (page a') = sequences (page a) /\
  activeSequence (page a') = activeSequence (page a) /\
  localStorage (page a') = localStorage (page a).

Definition channelb (v : number) : bool :=
  match v with
  | Fin (Qmake n 1) => (0 <=? n)%Z && (n <=? 255)%Z
  | _ => false
  end.

Definition channels (c : Rgb) : Prop := channel (r c) /\ channel (g c) /\ channel (b c).

(* ------------------------------------------------------------------ *)
(** ** Statements and example data *)

(** The waypoint a click adds to the draft. *)
Definition clickedPoint (e : MouseEvent) (isFrontView : bool) (now : number)
  (a : App) : DronePoint :=
  newPoint (fst (canvasCoordinates e)) (snd (canvasCoordinates e)) isFrontView
    (currentAltitude (canvas a)) (currentDrawingColor (page a))
    (currentDrawingRgb (page a)) now.

(** The reading of C2: after the click the draft holds none of the preview's
    waypoints, only the clicked one. *)
Definition preview_discarded (preview : DroneSequence) (clicked : DronePoint)
  (after : App) : Prop :=
  (forall q, In q (points preview) -> ~ In q (unsavedPoints (canvas after))) /\
  unsavedPoints (canvas after) = [clicked].

Definition midpoint (p q : Vec3) : Vec3 :=
  let '(p0, p1, p2) := p in
  let '(q0, q1, q2) := q in
  ((p0 + q0) / 2, (p1 + q1) / 2, (p2 + q2) / 2).

(** Playback of [s] at time [t] returns a position, and it is [expected]. *)
Definition positionAt (s : DroneSequence) (t : number) (expected : Vec3)
  : Prop :=
  match getCurrentPosition (Some s) t with
  | Some p => same3 p expected
  | None => False
  end.

Definition finiteCoordinates (p : DronePoint) : Prop :=
  isFinite (x p) && isFinite (y p) && isFinite (z p) = true.

(** The reading of C1, for a mapping of waypoints to positions: at 0 and at
    3000 the first waypoint, at 1500 half-way between the second and the
    third. *)
Definition interpolator_boundary (mapped : DronePoint -> Vec3)
  (s : DroneSequence) : Prop :=
  forall p0 p1 p2,
    points s = [p0; p1; p2] ->
    map timestamp (points s) = [0; 1000; 2000] ->
    duration s = 3000 ->
    positionAt s 0 (mapped p0) /\
    positionAt s 1500 (midpoint (mapped p1) (mapped p2)) /\
    positionAt s 3000 (mapped p0).

Definition maxTimestamp (s : DroneSequence) : number :=
  Math_max (map timestamp (points s)).

(** The duration covers every timestamp, and is 0 without waypoints. *)
Definition durationInvariant (s : DroneSequence) : Prop :=
  match points s with
  | [] => duration s = 0
  | _ :: _ =>
      (maxTimestamp s <=? duration s) = true /\
      Forall (fun p => (timestamp p <=? duration s) = true) (points s)
  end.

Section Produced.

Variable Number_toString : number -> string.
Variable Math_cos Math_sin : number -> number.
Variable Math_PI : number.

(** The sequences the generators hand over and those [saveSequence] builds
    from a draft of clicked waypoints, whose timestamps are readings of the
    clock. *)
Inductive Produced : DroneSequence -> Prop :=
| Produced_circle : forall flight led now timeString,
    Produced (circlePattern Number_toString Math_cos Math_sin Math_PI
                flight led now timeString)
| Produced_figure8 : forall flight led now timeString,
    Produced (figure8Pattern Number_toString Math_sin Math_PI
                flight led now timeString)
| Produced_spiral : forall flight led now timeString,
    Produced (spiralPattern Number_toString Math_cos Math_sin Math_PI
                flight led now timeString)
| Produced_formation : forall flight led now timeString,
    Produced (formationPattern Number_toString flight led now timeString)
| Produced_saved : forall sequence now c,
    Forall (fun p => isFinite (timestamp p) = true) (unsavedPoints c) ->
    Produced (newSequence Number_toString sequence now c).

End Produced.

Definition red : Rgb := {| r := 255; g := 0; b := 0 |}.

Definition waypoint (px py alt t : Z) : DronePoint :=
  {| x := number_of_Z px;
     y := number_of_Z py;
     z := number_of_Z alt;
     color := "#ff0000";
     rgb := red;
     brightness := Fin (8 # 10);
     timestamp := number_of_Z t;
     speed := Some 5;
     transitionDuration := Some 500 |}.

Definition seqA : DroneSequence :=
  {| id := "A"; name := "First";
     points := [waypoint 200 150 0 0; waypoint 220 150 10 1000;
                waypoint 260 190 30 2000];
     duration := 3000 |}.

Definition seqB : DroneSequence :=
  {| id := "B"; name := "Second";
     points := [waypoint 10 20 5 0; waypoint 30 40 5 500];
     duration := 1500 |}.

Definition seqC : DroneSequence :=
  {| id := "C"; name := "Third"; points := [waypoint 1 2 3 0];
     duration := 1000 |}.

Definition somePage (seqs : list DroneSequence) (active : option string)
  (preview : option DroneSequence) : Page :=
  {| sequences := seqs;
     activeSequence := active;
     currentDrawingColor := "#ff0000";
     currentDrawingRgb := red;
     previewSequence := preview;
     localStorage := match seqs with [] => None | _ => Some seqs end;
     toasts := [] |}.

(** One stored sequence, which is the active one. *)
Definition page_A : Page := somePage [seqA] (Some "A"%string) None.

(** Three stored sequences, the second active. *)
Definition page_ABC : Page :=
  somePage [seqA; seqB; seqC] (Some "B"%string) None.

(** [page_A] with an empty draft. *)
Definition app_A : App := {| page := page_A; canvas := initialCanvas |}.

(** [seqC] generated as a preview over an empty page. *)
Definition app_previewing : App :=
  onPreviewSequence seqC {| page := somePage [] None None;
                            canvas := initialCanvas |}.

(** A click at canvas pixel (100, 60) of an unscaled canvas at the origin. *)
Definition click_100_60 : MouseEvent :=
  {| clientX := 100; clientY := 60;
     rect_left := 0; rect_top := 0;
     rect_width := 400; rect_height := 300;
     canvas_width := 400; canvas_height := 300 |}.

Definition printZ (n : Z) : string := NilZero.string_of_int (Z.to_int n).

(** A stand-in for the printing of numbers: integers in decimal, as
    JavaScript prints them, other rationals as a quotient. *)
Definition printNumber (v : number) : string :=
  match v with
  | Fin a =>
      let a' := Qred a in
      if (Qden a' =? 1)%positive then printZ (Qnum a')
      else (printZ (Qnum a') ++ "/" ++ printZ (Zpos (Qden a')))%string
  | PInf => "Infinity"
  | NInf => "-Infinity"
  | NaN => "NaN"
  end.

(** Rational stand-ins for [Math.cos], [Math.sin] and [Math.PI]: the first
    terms of the series, and 355/113. *)
Definition seriesCos (v : number) : number := 1 - v * v / 2.
Definition seriesSin (v : number) : number := v - v * v * v / 6.
Definition ratioPI : number := Fin (355 # 113).

(** [app_A] after one click on the top-down plane. *)
Definition app_clicked : App :=
  handleCanvasClick click_100_60 false 1700000000000 app_A.

(** [seqB] with a waypoint whose [x] is not a number put in the middle. *)
Definition corruptWaypoint : DronePoint :=
  {| x := NaN; y := 40; z := 5;
     color := "#00ff00"; rgb := {| r := 0; g := 255; b := 0 |};
     brightness := Fin (8 # 10); timestamp := 250;
     speed := Some 5; transitionDuration := Some 500 |}.

Definition seqCorrupt : DroneSequence :=
  {| id := "B"; name := "Second";
     points := [waypoint 10 20 5 0; corruptWaypoint; waypoint 30 40 5 500];
     duration := 1500 |}.

(* ------------------------------------------------------------------ *)
(** ** Colour conversion *)

Definition mkRgb (cr cg cb : number) : Rgb := {| r := cr; g := cg; b := cb |}.

(** C8: at full saturation and half lightness the hues 0, 60, 120, 180, 240
    and 300 convert to red, yellow, green, cyan, blue and magenta, each
    channel exactly 0 or 255. *)
Theorem hslToRgb_primary_and_secondary :
  hslToRgb 0 100 50 = mkRgb 255 0 0 /\
  hslToRgb 60 100 50 = mkRgb 255 255 0 /\
  hslToRgb 120 100 50 = mkRgb 0 255 0 /\
  hslToRgb 180 100 50 = mkRgb 0 255 255 /\
  hslToRgb 240 100 50 = mkRgb 0 0 255 /\
  hslToRgb 300 100 50 = mkRgb 255 0 255.
Proof. repeat split; vm_compute; reflexivity. Qed.

(* ------------------------------------------------------------------ *)
(** ** Deleting a sequence *)

Lemma Subseq_filter {A : Type} (keep : A -> bool) (l : list A) :
  Subseq (filter keep l) l.
Proof.
  induction l as [|v l IH]; cbn.
  - constructor.
  - destruct (keep v); constructor; exact IH.
Qed.

Lemma deleteSequence_sequences i p :
  sequences (deleteSequence i p)
  = filter (fun seq => negb (String.eqb (id seq) i)) (sequences p).
Proof.
  unfold deleteSequence.
  destruct (is_active (activeSequence p) i); reflexivity.
Qed.

Lemma deleteSequence_active i p :
  activeSequence (deleteSequence i p)
  = if is_active (activeSequence p) i
    then option_map id (hd_error (sequences (deleteSequence i p)))
    else activeSequence p.
Proof.
  rewrite deleteSequence_sequences.
  unfold deleteSequence.
  destruct (is_active (activeSequence p) i); cbn; [|reflexivity].
  destruct (filter _ (sequences p)); reflexivity.
Qed.

Lemma is_active_iff a i : is_active a i = true <-> a = Some i.
Proof.
  destruct a as [s|]; cbn.
  - rewrite String.eqb_eq. split; congruence.
  - split; discriminate.
Qed.

Lemma kept_id_differs i s : negb (String.eqb (id s) i) = true <-> id s <> i.
Proof.
  rewrite negb_true_iff. split.
  - intros H E. apply String.eqb_eq in E. congruence.
  - intros H. apply String.eqb_neq. exact H.
Qed.

(** The state [deleteSequence] sets, in the render that follows and before
    any effect has run: deleting the sequence the active pointer names moves
    the pointer to the id of the first sequence that remains, or to none
    when nothing remains; that pointer names a sequence of that collection
    and is not the deleted id. *)
Lemma deleteSequence_repoints_active (i : string) (p : Page)
  (Hactive : activeSequence p = Some i) :
  let p' := deleteSequence i p in
  activeSequence p' = option_map id (hd_error (sequences p')) /\
  (sequences p' = [] -> activeSequence p' = None) /\
  (forall j, activeSequence p' = Some j ->
             exists s, In s (sequences p') /\ id s = j) /\
  activeSequence p' <> Some i.
Proof.
  intros p'.
  assert (Hp : activeSequence p' = option_map id (hd_error (sequences p'))).
  { unfold p'. rewrite deleteSequence_active.
    apply is_active_iff in Hactive. rewrite Hactive. reflexivity. }
  assert (Hin : forall j, activeSequence p' = Some j ->
                          exists s, In s (sequences p') /\ id s = j).
  { intros j Hj. rewrite Hp in Hj.
    destruct (sequences p') as [|s rest]; cbn in Hj; [discriminate|].
    exists s. split; [left; reflexivity | congruence]. }
  repeat split.
  - exact Hp.
  - intros E. rewrite Hp, E. reflexivity.
  - exact Hin.
  - intros E. destruct (Hin i E) as (s & Hs & Hid).
    unfold p' in Hs. rewrite deleteSequence_sequences in Hs.
    apply filter_In in Hs. destruct Hs as [_ Hs].
    apply kept_id_differs in Hs. contradiction.
Qed.

(** The state [deleteSequence] sets, in the render that follows and before
    any effect has run: the collection without the sequences of that id, the
    others as they are, in their order; the pointer moves only when it names
    the deleted id, and the preview and the stored item are not touched by
    the handler. *)
Lemma deleteSequence_frame (i : string) (p : Page) :
  let p' := deleteSequence i p in
  sequences p' = filter (fun s => negb (String.eqb (id s) i)) (sequences p) /\
  (forall s, In s (sequences p') <-> In s (sequences p) /\ id s <> i) /\
  Subseq (sequences p') (sequences p) /\
  (activeSequence p <> Some i -> activeSequence p' = activeSequence p) /\
  previewSequence p' = previewSequence p /\
  localStorage p' = localStorage p.
Proof.
  intros p'. unfold p'.
  rewrite deleteSequence_sequences.
  split; [reflexivity|].
  split.
  { intros s. rewrite filter_In, kept_id_differs. reflexivity. }
  split; [apply Subseq_filter|].
  split.
  { intros Hne. rewrite deleteSequence_active.
    destruct (is_active (activeSequence p) i) eqn:E; [|reflexivity].
    apply is_active_iff in E. contradiction. }
  unfold deleteSequence.
  destruct (is_active (activeSequence p) i); split; reflexivity.
Qed.

(** C6: with the single stored sequence [seqA] active, deleting it sets the
    pointer to none for one render only.  The pointer having changed, the
    load effect runs again; the stored item still holds [seqA], since the
    save effect does not write an empty collection; and the page settles
    with [seqA] back in the collection and the pointer at "A", the id that
    was deleted. *)
Theorem delete_only_sequence_pointer_returns :
  activeSequence page_A = Some "A"%string /\
  activeSequence (deleteSequence "A" page_A) = None /\
  exists settled,
    settle 3%nat (afterMutation (deleteSequence "A") page_A) = Some settled /\
    sequences settled = [seqA] /\
    activeSequence settled = Some "A"%string.
Proof.
  split; [reflexivity|]. split; [reflexivity|].
  eexists. split; [vm_compute; reflexivity|]. split; reflexivity.
Qed.

(** C10: with [seqA], [seqB] and [seqC] stored and [seqB] active, deleting
    "B" leaves [seqA] and [seqC] for one render only.  The pointer having
    moved to "A", the load effect runs again, before the save effect has
    written, and sets the collection to the stored one: the page settles
    with all three sequences, [seqB] among them. *)
Theorem delete_active_sequence_restored :
  activeSequence page_ABC = Some "B"%string /\
  sequences (deleteSequence "B" page_ABC) = [seqA; seqC] /\
  exists settled,
    settle 2%nat (afterMutation (deleteSequence "B") page_ABC)
    = Some settled /\
    sequences settled = [seqA; seqB; seqC] /\
    In seqB (sequences settled) /\
    activeSequence settled = Some "A"%string.
Proof.
  split; [reflexivity|]. split; [reflexivity|].
  eexists. split; [vm_compute; reflexivity|].
  split; [reflexivity|]. split; [right; left; reflexivity | reflexivity].
Qed.

(* ------------------------------------------------------------------ *)
(** ** Persistence of the collection *)

Lemma committed_persists_nonempty (mutation : Page -> Page) (p : Page) :
  sequences (mutation p) <> [] ->
  localStorage (committed mutation p) = Some (sequences (committed mutation p)).
Proof.
  intros Hne. unfold committed, saveSequencesEffect.
  destruct (sequences (mutation p)) as [|s rest] eqn:E; [contradiction|].
  cbn. rewrite E. reflexivity.
Qed.

Lemma committed_keeps_item_when_empty (mutation : Page -> Page) (p : Page) :
  sequences (mutation p) = [] ->
  localStorage (committed mutation p) = localStorage (mutation p).
Proof.
  intros E. unfold committed, saveSequencesEffect. rewrite E. reflexivity.
Qed.

Lemma addSequence_persisted s p :
  localStorage (committed (addSequence s) p)
  = Some (sequences (committed (addSequence s) p)).
Proof.
  apply committed_persists_nonempty.
  unfold addSequence.
  destruct (negb (truthy (activeSequence p))); cbn;
    destruct (sequences p); discriminate.
Qed.

(** C3: with the single sequence [seqA] stored and in memory, deleting it
    empties the collection in memory while the stored item still holds
    [seqA]: the effect that saves the collection does not write an empty
    one. *)
Theorem delete_last_sequence_not_persisted :
  let p' := committed (deleteSequence "A") page_A in
  sequences p' = [] /\
  localStorage p' = Some [seqA] /\
  localStorage p' <> Some (sequences p').
Proof.
  cbn. repeat split. discriminate.
Qed.

(* ------------------------------------------------------------------ *)
(** ** Saving and editing the draft *)

(** C5: saving a draft without waypoints only shows the destructive notice
    "No Points to Save"; the draft (points, name, unsaved-changes flag), the
    collection, the active pointer, the preview and the stored item are as
    before. *)
Theorem saveSequence_empty_draft_rejected
  (Number_toString : number -> string) (now : number) (a : App)
  (Hempty : unsavedPoints (canvas a) = []) :
  let a' := saveSequence Number_toString now a in
  canvas a' = canvas a /\
  sequences (page a') = sequences (page a) /\
  activeSequence (page a') = activeSequence (page a) /\
  previewSequence (page a') = previewSequence (page a) /\
  localStorage (page a') = localStorage (page a) /\
  toasts (page a')
  = (toasts (page a)
     ++ [ {| title := "No Points to Save";
             description := "Add some waypoints before saving";
             variant := Some "destructive"%string |} ])%list.
Proof.
  unfold saveSequence. rewrite Hempty. cbn. repeat split.
Qed.

Lemma saveSequence_empty_draft_rejected_witness :
  unsavedPoints (canvas app_A) = [] /\
  sequences (page (saveSequence printNumber 1700000000000 app_A)) = [seqA].
Proof.
  split; [reflexivity|].
  apply (saveSequence_empty_draft_rejected printNumber 1700000000000 app_A).
  reflexivity.
Defined.

Lemma handleCanvasClick_preview e front now a :
  previewSequence (page (handleCanvasClick e front now a)) = None.
Proof.
  unfold handleCanvasClick.
  destruct (canvasCoordinates e) as [cx cy].
  destruct (previewSequence (page a)) eqn:E; cbn; [reflexivity | exact E].
Qed.

Lemma handleCanvasClick_canvas e front now a :
  canvas (handleCanvasClick e front now a)
  = setHasUnsavedChanges true
      (setUnsavedPoints
         (fun prev => (prev ++ [clickedPoint e front now a])%list) (canvas a)).
Proof.
  unfold handleCanvasClick, clickedPoint.
  destruct (canvasCoordinates e) as [cx cy].
  destruct (previewSequence (page a)) eqn:E; cbn; [reflexivity|].
  rewrite E. reflexivity.
Qed.

(** C2 (as the code has it): a click while a preview is loaded clears the
    preview marker of the page and appends the clicked waypoint to the
    draft, which keeps the waypoints of the preview; the draft is marked
    unsaved. *)
Theorem click_keeps_preview_waypoints
  (e : MouseEvent) (front : bool) (now : number) (a : App)
  (preview : DroneSequence)
  (Hpreview : previewSequence (page a) = Some preview)
  (Hloaded : unsavedPoints (canvas a) = points preview) :
  let a' := handleCanvasClick e front now a in
  previewSequence (page a') = None /\
  unsavedPoints (canvas a')
  = (points preview ++ [clickedPoint e front now a])%list /\
  hasUnsavedChanges (canvas a') = true /\
  sequences (page a') = sequences (page a).
Proof.
  intros a'. unfold a'.
  rewrite handleCanvasClick_preview, handleCanvasClick_canvas.
  cbn. rewrite Hloaded.
  repeat split.
  unfold handleCanvasClick.
  destruct (canvasCoordinates e). rewrite Hpreview. reflexivity.
Qed.

(** With [seqC] loaded as a preview, a click leaves a draft of two
    waypoints, the preview's own and the clicked one. *)
Lemma click_on_preview_merges :
  previewSequence (page app_previewing) = Some seqC /\
  unsavedPoints (canvas app_previewing) = points seqC /\
  ~ preview_discarded seqC
      (clickedPoint click_100_60 false 1700000000000 app_previewing)
      (handleCanvasClick click_100_60 false 1700000000000 app_previewing).
Proof.
  split; [reflexivity|]. split; [reflexivity|].
  intros [_ H]. rewrite handleCanvasClick_canvas in H. cbn in H.
  discriminate H.
Qed.

Lemma click_keeps_preview_waypoints_witness :
  previewSequence (page app_previewing) = Some seqC /\
  unsavedPoints (canvas app_previewing) = points seqC /\
  unsavedPoints
    (canvas (handleCanvasClick click_100_60 true 1700000000000 app_previewing))
  = (points seqC
     ++ [clickedPoint click_100_60 true 1700000000000 app_previewing])%list.
Proof.
  split; [reflexivity|]. split; [reflexivity|].
  apply (click_keeps_preview_waypoints click_100_60 true 1700000000000
           app_previewing seqC); reflexivity.
Defined.

(* ------------------------------------------------------------------ *)
(** ** Canvas mappings *)

Lemma leb_Fin_l a v : (Fin a <=? v) = true -> v = PInf \/ exists b, v = Fin b /\ (a <= b)%Q.
Proof.
  destruct v as [b| | |]; cbn; try discriminate.
  - intros H. right. exists b. split; [reflexivity|]. apply Qle_bool_iff. exact H.
  - intros _. left. reflexivity.
Qed.

Lemma between_Fin lo hi v :
  (Fin lo <=? v) = true -> (v <=? Fin hi) = true ->
  exists a, v = Fin a /\ (lo <= a <= hi)%Q.
Proof.
  intros Hl Hh.
  destruct (leb_Fin_l _ _ Hl) as [E | (a & E & Ha)]; subst v.
  - discriminate Hh.
  - exists a. split; [reflexivity|]. split; [exact Ha|].
    apply Qle_bool_iff. exact Hh.
Qed.

Lemma Math_max_zero_nonneg v : (0 <= v)%Q -> Math_max [0; Fin v] = Fin v.
Proof.
  intros H. unfold Math_max. cbn.
  apply Qle_bool_iff in H. rewrite H. reflexivity.
Qed.

Lemma front_altitude_Fin qy :
  (canvasHeight - Fin qy) / 3 = Fin ((300 - qy) / 3).
Proof. reflexivity. Qed.

(** C9: a click at canvas pixel [(cx, cy)] inside the 400 x 300 canvas adds a
    waypoint that is drawn at [(cx, cy)] again: exactly on the top-down
    plane; on the front plane exactly in [cx] and, in exact arithmetic, also
    in [cy], the altitude being [(300 - cy) / 3]. *)
Theorem canvas_round_trip (e : MouseEvent) (now : number) (a : App)
  (cx cy : number)
  (Hcoords : canvasCoordinates e = (cx, cy))
  (Hx0 : (0 <=? cx) = true) (Hx1 : (cx <=? canvasWidth) = true)
  (Hy0 : (0 <=? cy) = true) (Hy1 : (cy <=? canvasHeight) = true) :
  let top := clickedPoint e false now a in
  let front := clickedPoint e true now a in
  unsavedPoints (canvas (handleCanvasClick e false now a))
  = (unsavedPoints (canvas a) ++ [top])%list /\
  unsavedPoints (canvas (handleCanvasClick e true now a))
  = (unsavedPoints (canvas a) ++ [front])%list /\
  waypointPixel false top = (cx, cy) /\
  fst (waypointPixel true front) = cx /\
  snd (waypointPixel true front) == cy /\
  z front == (canvasHeight - cy) / 3.
Proof.
  intros top front. unfold top, front.
  rewrite !handleCanvasClick_canvas.
  unfold clickedPoint. rewrite Hcoords. cbn [fst snd].
  destruct (between_Fin _ _ _ Hx0 Hx1) as (qx & -> & Hqx).
  destruct (between_Fin _ _ _ Hy0 Hy1) as (qy & -> & Hqy).
  split; [reflexivity|]. split; [reflexivity|]. split; [reflexivity|].
  split; [reflexivity|].
  unfold waypointPixel, newPoint. cbn [x y z snd].
  rewrite front_altitude_Fin.
  assert (Hz : (0 <= (300 - qy) / 3)%Q).
  { apply Qle_shift_div_l; [reflexivity | lra]. }
  rewrite Math_max_zero_nonneg by exact Hz.
  split; cbn; [field | reflexivity].
Qed.


(* ------------------------------------------------------------------ *)
(** ** Playback *)

Lemma finiteCoordinates_Fin p :
  finiteCoordinates p ->
  exists a b c, x p = Fin a /\ y p = Fin b /\ z p = Fin c.
Proof.
  unfold finiteCoordinates.
  destruct (x p) as [a| | |], (y p) as [b| | |], (z p) as [c| | |];
    cbn; try discriminate.
  intros _. exists a, b, c. repeat split.
Qed.

(** C1 (as the code has it): for three waypoints with finite coordinates,
    timestamps 0, 1000, 2000 and duration 3000, playback is at the first
    waypoint's playback position at 0 and at 3000, and at the second
    waypoint's at 1500; half-way between the second and the third it is at
    2250.  Playback interpolates over the waypoint index. *)
Theorem playback_boundary (s : DroneSequence) (p0 p1 p2 : DronePoint)
  (Hpoints : points s = [p0; p1; p2])
  (Htimes : map timestamp (points s) = [0; 1000; 2000])
  (Hduration : duration s = 3000)
  (Hfinite : Forall finiteCoordinates (points s)) :
  positionAt s 0 (dronePosition p0) /\
  positionAt s 1500 (dronePosition p1) /\
  positionAt s 2250 (midpoint (dronePosition p1) (dronePosition p2)) /\
  positionAt s 3000 (dronePosition p0).
Proof.
  rewrite Hpoints in Hfinite.
  inversion Hfinite as [|? ? F0 Hf1]; subst.
  inversion Hf1 as [|? ? F1 Hf2]; subst.
  inversion Hf2 as [|? ? F2 _]; subst.
  destruct (finiteCoordinates_Fin _ F0) as (x0 & y0 & z0 & Ex0 & Ey0 & Ez0).
  destruct (finiteCoordinates_Fin _ F1) as (x1 & y1 & z1 & Ex1 & Ey1 & Ez1).
  destruct (finiteCoordinates_Fin _ F2) as (x2 & y2 & z2 & Ex2 & Ey2 & Ez2).
  unfold positionAt, getCurrentPosition.
  rewrite Hpoints, Hduration. cbn [length Nat.eqb].
  repeat split;
    rewrite ?Ex0, ?Ey0, ?Ez0, ?Ex1, ?Ey1, ?Ez1, ?Ex2, ?Ey2, ?Ez2;
    match goal with
    | |- same (lerp _ _ ?t) _ =>
        let v := eval vm_compute in t in change t with v
    end;
    cbn; field.
Qed.

(** For [seqA] the position at 1500 is the second waypoint's, not half-way
    to the third, whether waypoints are mapped as playback or as the path
    renderer maps them. *)
Lemma playback_midpoint_of_second_segment_not_at_1500 :
  ~ interpolator_boundary dronePosition seqA /\
  ~ interpolator_boundary displayCoordinates seqA.
Proof.
  split; intros H;
    destruct (H _ _ _ eq_refl eq_refl eq_refl) as (_ & H1500 & _);
    vm_compute in H1500; destruct H1500 as (Hx & _); discriminate Hx.
Qed.

Lemma playback_boundary_witness :
  points seqA = [waypoint 200 150 0 0; waypoint 220 150 10 1000;
                 waypoint 260 190 30 2000] /\
  positionAt seqA 1500 (dronePosition (waypoint 220 150 10 1000)).
Proof.
  split; [reflexivity|].
  assert (Hfinite : Forall finiteCoordinates (points seqA))
    by (repeat constructor).
  exact (proj1 (proj2 (playback_boundary seqA (waypoint 200 150 0 0)
                         (waypoint 220 150 10 1000)
                         (waypoint 260 190 30 2000)
                         eq_refl eq_refl eq_refl Hfinite))).
Defined.

(* ------------------------------------------------------------------ *)
(** ** The rendered path *)

Lemma mapi_from_position (colorAt : nat -> option string) (pts : list Vec3) :
  forall start,
    map position
      (mapi_from start
         (fun idx pt => {| position := pt;
                           markerColor := colorAt idx;
                           label := idx + 1 |}) pts)
    = pts.
Proof.
  induction pts as [|pt pts IH]; intros start; cbn.
  - reflexivity.
  - rewrite IH. reflexivity.
Qed.

Lemma displayCoordinates_finite p :
  isFinitePoint (displayCoordinates p)
  = isFinite (x p) && isFinite (z p) && isFinite (y p).
Proof.
  unfold displayCoordinates, isFinitePoint.
  destruct (x p), (y p), (z p); reflexivity.
Qed.

(** C7: the path drawn for a sequence goes through the display coordinates
    of exactly the waypoints whose three coordinates are finite, in their
    order, nothing standing in for the others; with fewer than two such
    waypoints nothing is drawn. *)
Theorem FlightPath_finite_points_only (sequence : DroneSequence)
  (isActive : bool) :
  let raw := map displayCoordinates (points sequence) in
  match FlightPath sequence isActive with
  | None => (length (filter isFinitePoint raw) < 2)%nat
  | Some grp =>
      (2 <= length (line grp))%nat /\
      line grp = filter isFinitePoint raw /\
      map position (markers grp) = line grp /\
      Forall (fun pt => isFinitePoint pt = true) (line grp) /\
      Subseq (line grp) raw /\
      (forall p, In p (points sequence) ->
                 isFinitePoint (displayCoordinates p) = false ->
                 ~ In (displayCoordinates p) (line grp)) /\
      (forall p, In p (points sequence) ->
                 isFinitePoint (displayCoordinates p) = true ->
                 In (displayCoordinates p) (line grp))
  end.
Proof.
  intros raw. unfold FlightPath. fold raw.
  destruct (length (filter isFinitePoint raw) <? 2)%nat eqn:E.
  - apply Nat.ltb_lt in E. exact E.
  - apply Nat.ltb_ge in E. cbn [line markers].
    split; [exact E|]. split; [reflexivity|].
    split; [apply mapi_from_position|].
    split.
    { apply Forall_forall. intros pt Hpt. apply filter_In in Hpt. tauto. }
    split; [apply Subseq_filter|].
    split.
    { intros p _ Hbad Hin. apply filter_In in Hin. destruct Hin as [_ Hin].
      congruence. }
    intros p Hp Hok. apply filter_In. split; [|exact Hok].
    unfold raw. apply in_map. exact Hp.
Qed.

(* ------------------------------------------------------------------ *)
(** ** Durations *)

Lemma durationInvariant_by_timestamps (s : DroneSequence) (ts : list number) :
  map timestamp (points s) = ts ->
  ts <> [] ->
  (Math_max ts <=? duration s) = true ->
  forallb (fun t => t <=? duration s) ts = true ->
  durationInvariant s.
Proof.
  intros Hts Hne Hmax Hall. unfold durationInvariant, maxTimestamp.
  destruct (points s) as [|p rest] eqn:E.
  - cbn in Hts. congruence.
  - rewrite Hts. split; [exact Hmax|].
    rewrite forallb_forall in Hall.
    apply Forall_forall. intros q Hq. apply Hall.
    rewrite <- Hts. apply in_map. exact Hq.
Qed.

(** The running maximum over finite numbers, started at [-Infinity] or at a
    finite number, is [-Infinity] only if nothing was seen, and else a finite
    bound of everything seen. *)
Lemma fold_max2_finite (l : list number) :
  Forall (fun v => isFinite v = true) l ->
  forall acc,
    (acc = NInf \/ exists b, acc = Fin b) ->
    (l = [] /\ acc = NInf /\ fold_left max2 l acc = NInf) \/
    (exists q, fold_left max2 l acc = Fin q /\
               (forall b, acc = Fin b -> (b <= q)%Q) /\
               Forall (fun v => (v <=? Fin q) = true) l).
Proof.
  induction 1 as [|v l Hv Hl IH]; intros acc Hacc.
  - destruct Hacc as [-> | (b & ->)].
    + left. repeat split.
    + right. exists b. repeat split.
      * intros b' E. injection E as <-. apply Qle_refl.
      * constructor.
  - right. destruct v as [a| | |]; try discriminate Hv.
    assert (Hstep : exists c, max2 acc (Fin a) = Fin c /\ (a <= c)%Q /\
                              (forall b, acc = Fin b -> (b <= c)%Q)).
    { destruct Hacc as [-> | (b & ->)].
      - exists a. cbn. repeat split; [apply Qle_refl | discriminate].
      - cbn. destruct (Qle_bool b a) eqn:E.
        + exists a. repeat split; [apply Qle_refl|].
          intros b' Eb. injection Eb as <-. apply Qle_bool_iff. exact E.
        + exists b. repeat split.
          * destruct (Qlt_le_dec b a) as [Hlt | Hle]; [|exact Hle].
            apply Qlt_le_weak, Qle_bool_iff in Hlt. congruence.
          * intros b' Eb. injection Eb as <-. apply Qle_refl. }
    destruct Hstep as (c & Ec & Hac & Hbc).
    cbn [fold_left]. rewrite Ec.
    destruct (IH (Fin c) (or_intror (ex_intro _ c eq_refl)))
      as [(_ & Habs & _) | (q & Eq & Hq & Hall)]; [discriminate Habs|].
    exists q. split; [exact Eq|]. split.
    + intros b Eb. apply Qle_trans with c; [apply Hbc, Eb | apply Hq; reflexivity].
    + constructor; [|exact Hall].
      cbn. apply Qle_bool_iff.
      apply Qle_trans with c; [exact Hac | apply Hq; reflexivity].
Qed.

Lemma leb_add_1000 v q :
  (v <=? Fin q) = true -> (v <=? Fin q + 1000) = true.
Proof.
  destruct v as [a| | |]; cbn; try (intros; assumption || reflexivity).
  intros H. apply Qle_bool_iff in H. apply Qle_bool_iff. lra.
Qed.

(** C4: every sequence a generator produces, and every sequence saved from
    a draft of clicked waypoints, has a duration at least the largest
    timestamp of its waypoints; a sequence without waypoints has duration
    0. *)
Theorem produced_duration_covers_timestamps
  (Number_toString : number -> string) (Math_cos Math_sin : number -> number)
  (Math_PI : number) (s : DroneSequence)
  (Hproduced : Produced Number_toString Math_cos Math_sin Math_PI s) :
  durationInvariant s.
Proof.
  destruct Hproduced as [flight led now ts | flight led now ts
                        | flight led now ts | flight led now ts
                        | sequence now c Hfinite].
  1-4: eapply durationInvariant_by_timestamps;
    [ vm_compute; reflexivity
    | discriminate
    | vm_compute; reflexivity
    | vm_compute; reflexivity ].
  unfold durationInvariant, maxTimestamp. cbn [points duration newSequence].
  destruct (unsavedPoints c) as [|p rest] eqn:E; [reflexivity|].
  cbn [length Nat.ltb Nat.leb].
  assert (Hts : Forall (fun v => isFinite v = true) (map timestamp (p :: rest))).
  { apply Forall_map. exact Hfinite. }
  destruct (fold_max2_finite _ Hts NInf (or_introl eq_refl))
    as [(Habs & _) | (q & Eq & _ & Hall)]; [discriminate Habs|].
  unfold Math_max. rewrite Eq. split.
  - cbn. apply Qle_bool_iff. lra.
  - apply Forall_forall. intros p' Hp'.
    rewrite Forall_forall in Hall.
    apply leb_add_1000, Hall, in_map, Hp'.
Qed.

Lemma produced_duration_covers_timestamps_witness :
  Produced printNumber seriesCos seriesSin ratioPI
    (newSequence printNumber None 1700000000001 (canvas app_clicked)) /\
  durationInvariant
    (newSequence printNumber None 1700000000001 (canvas app_clicked)).
Proof.
  assert (H : Produced printNumber seriesCos seriesSin ratioPI
                (newSequence printNumber None 1700000000001
                   (canvas app_clicked))).
  { apply Produced_saved. repeat constructor. }
  split; [exact H|].
  exact (produced_duration_covers_timestamps printNumber seriesCos seriesSin ratioPI
           _ H).
Defined.

(* ------------------------------------------------------------------ *)
(** ** The statements at the example data *)

Lemma deleteSequence_repoints_active_witness :
  activeSequence page_ABC = Some "B"%string /\
  sequences (deleteSequence "B" page_ABC) = [seqA; seqC] /\
  activeSequence (deleteSequence "B" page_ABC) = Some "A"%string.
Proof.
  split; [reflexivity|]. split; [reflexivity|].
  destruct (deleteSequence_repoints_active "B" page_ABC eq_refl) as [H _].
  exact H.
Defined.

Lemma canvas_round_trip_witness :
  canvasCoordinates click_100_60 = (Fin (40000 # 400), Fin (18000 # 300)) /\
  waypointPixel false (clickedPoint click_100_60 false 1700000000000 app_A)
  = (Fin (40000 # 400), Fin (18000 # 300)) /\
  snd (waypointPixel true (clickedPoint click_100_60 true 1700000000000 app_A))
  == Fin (18000 # 300).
Proof.
  split; [reflexivity|].
  destruct (canvas_round_trip click_100_60 1700000000000 app_A
              (Fin (40000 # 400)) (Fin (18000 # 300))
              eq_refl eq_refl eq_refl eq_refl eq_refl)
    as (_ & _ & Htop & _ & Hfront & _).
  split; [exact Htop | exact Hfront].
Defined.

Lemma deleteSequence_frame_witness :
  activeSequence page_ABC <> Some "C"%string /\
  sequences (deleteSequence "C" page_ABC) = [seqA; seqB] /\
  activeSequence (deleteSequence "C" page_ABC) = Some "B"%string.
Proof.
  assert (Hne : activeSequence page_ABC <> Some "C"%string) by discriminate.
  split; [exact Hne|].
  destruct (deleteSequence_frame "C" page_ABC) as (Hseq & _ & _ & Hact & _).
  split; [exact Hseq | exact (Hact Hne)].
Defined.

Lemma FlightPath_finite_points_only_witness :
  isFinitePoint (displayCoordinates corruptWaypoint) = false /\
  exists grp,
    FlightPath seqCorrupt true = Some grp /\
    length (line grp) = 2%nat /\
    ~ In (displayCoordinates corruptWaypoint) (line grp).
Proof.
  split; [reflexivity|].
  pose proof (FlightPath_finite_points_only seqCorrupt true) as H.
  cbv zeta in H.
  destruct (FlightPath seqCorrupt true) as [grp|] eqn:E.
  - exists grp. split; [reflexivity|].
    destruct H as (_ & Hline & _ & _ & _ & Hout & _).
    split.
    + rewrite Hline. reflexivity.
    + apply Hout; [right; left; reflexivity | reflexivity].
  - exfalso. cbn in H. lia.
Defined.

(* ------------------------------------------------------------------ *)
(** ** The collection under its three mutations *)

Lemma addSequence_sequences s p :
  sequences (addSequence s p) = (sequences p ++ [s])%list.
Proof.
  unfold addSequence. destruct (negb (truthy (activeSequence p))); reflexivity.
Qed.

Lemma addSequence_active s p :
  activeSequence (addSequence s p)
  = if truthy (activeSequence p) then activeSequence p else Some (id s).
Proof.
  unfold addSequence. destruct (truthy (activeSequence p)); reflexivity.
Qed.

Lemma updateSequence_sequences i u p :
  sequences (updateSequence i u p)
  = map (fun seq => if String.eqb (id seq) i then spread seq u else seq)
        (sequences p).
Proof. reflexivity. Qed.

Lemma spread_keeps_id i u s :
  id_opt u = None \/ id_opt u = Some i -> id s = i -> id (spread s u) = i.
Proof.
  intros [E | E] Hs; unfold spread; cbn; rewrite E; cbn; congruence.
Qed.

Lemma updateSequence_ids i u p :
  id_opt u = None \/ id_opt u = Some i ->
  map id (sequences (updateSequence i u p)) = map id (sequences p).
Proof.
  intros Hu. rewrite updateSequence_sequences, map_map.
  apply map_ext_in. intros s _.
  destruct (String.eqb (id s) i) eqn:E; [|reflexivity].
  apply String.eqb_eq in E. rewrite (spread_keeps_id i u s Hu E). congruence.
Qed.

Lemma truthy_Some_nonempty i : truthy (Some i) = true <-> i <> ""%string.
Proof.
  destruct i; cbn; split; congruence.
Qed.

Lemma deleteSequence_store i p :
  localStorage (deleteSequence i p) = localStorage p.
Proof.
  unfold deleteSequence. destruct (is_active (activeSequence p) i); reflexivity.
Qed.

Lemma addSequence_store s p :
  localStorage (addSequence s p) = localStorage p.
Proof.
  unfold addSequence. destruct (negb (truthy (activeSequence p))); reflexivity.
Qed.

(** [deleteSequence] on the sequence the pointer names, field by field. *)
Lemma deleteSequence_of_active (i : string) (p : Page) :
  activeSequence p = Some i ->
  deleteSequence i p
  = let kept := filter (fun seq => negb (String.eqb (id seq) i)) (sequences p) in
    {| sequences := kept;
       activeSequence := option_map id (hd_error kept);
       currentDrawingColor := currentDrawingColor p;
       currentDrawingRgb := currentDrawingRgb p;
       previewSequence := previewSequence p;
       localStorage := localStorage p;
       toasts := (toasts p
                  ++ [{| title := "Sequence Deleted";
                         description :=
                           "The sequence has been removed successfully";
                         variant := None |}])%list |}.
Proof.
  intros H. apply is_active_iff in H. unfold deleteSequence. rewrite H.
  unfold toast, setActiveSequence, setSequences.
  cbn [sequences activeSequence currentDrawingColor currentDrawingRgb
       previewSequence localStorage toasts].
  destruct (filter (fun seq => negb (String.eqb (id seq) i)) (sequences p));
    reflexivity.
Qed.

(* ------------------------------------------------------------------ *)
(** ** The page after a mutation, once its effects have run *)

Lemma same_pointer_iff a a' : same_pointer a a' = true <-> a = a'.
Proof.
  destruct a as [v|], a' as [w|]; cbn; try (split; congruence).
  rewrite String.eqb_eq. split; congruence.
Qed.

Lemma same_pointer_refl a : same_pointer a a = true.
Proof.
  apply same_pointer_iff. reflexivity.
Qed.

Lemma setStored_saved (q : Page) :
  setStored (localStorage (saveSequencesEffect q)) q = saveSequencesEffect q.
Proof.
  unfold saveSequencesEffect.
  destruct q as [seqs act col rgb prev store ts]; cbn [sequences].
  destruct (0 <? length seqs)%nat; reflexivity.
Qed.

Lemma saveSequencesEffect_active (q : Page) :
  activeSequence (saveSequencesEffect q) = activeSequence q.
Proof.
  unfold saveSequencesEffect. destruct (0 <? _)%nat; reflexivity.
Qed.

Lemma saved_sequences (q : Page) :
  sequences (saveSequencesEffect q) = sequences q.
Proof.
  unfold saveSequencesEffect. destruct (0 <? _)%nat; reflexivity.
Qed.

Lemma saved_preview (q : Page) :
  previewSequence (saveSequencesEffect q) = previewSequence q.
Proof.
  unfold saveSequencesEffect. destruct (0 <? _)%nat; reflexivity.
Qed.

Lemma saved_store (q : Page) :
  localStorage (saveSequencesEffect q)
  = match sequences q with
    | [] => localStorage q
    | _ :: _ => Some (sequences q)
    end.
Proof.
  unfold saveSequencesEffect. destruct (sequences q); reflexivity.
Qed.

Lemma loadSequencesEffect_absent (q : Page) :
  localStorage q = None -> loadSequencesEffect q q = q.
Proof.
  intros E. unfold loadSequencesEffect. rewrite E. reflexivity.
Qed.

(** The commit of a render in which the load effect does not run, or finds
    no stored item. *)
Lemma commit_without_load (q : Page) (changed : bool) :
  changed = false \/ localStorage q = None ->
  commit {| shownPage := q; pointerChanged := changed;
            collectionChanged := true |}
  = {| shownPage := saveSequencesEffect q; pointerChanged := false;
       collectionChanged := false |}.
Proof.
  intros H. unfold commit. cbn [shownPage pointerChanged collectionChanged].
  assert (E : (if changed then loadSequencesEffect q q else q) = q).
  { destruct H as [-> | H]; [reflexivity|].
    rewrite loadSequencesEffect_absent by exact H.
    destruct changed; reflexivity. }
  rewrite E, setStored_saved, saveSequencesEffect_active, same_pointer_refl.
  f_equal. destruct H as [-> | ->]; [reflexivity | apply andb_false_r].
Qed.

(** A mutation that leaves the pointer alone, or that finds no stored item,
    is settled by one commit: the page is the one the handler set, with the
    collection saved. *)
Lemma settle_without_load (mutation : Page -> Page) (p : Page) :
  activeSequence (mutation p) = activeSequence p \/
  localStorage (mutation p) = None ->
  settle 1 (afterMutation mutation p) = Some (committed mutation p).
Proof.
  intros H. unfold committed, afterMutation.
  cbn [settle pointerChanged collectionChanged].
  rewrite orb_true_r, commit_without_load.
  - reflexivity.
  - destruct H as [H | H]; [left | right; exact H].
    rewrite H, same_pointer_refl. reflexivity.
Qed.

(** X1: deleting an id the pointer does not name is final after one commit.
    The page settles with the collection without the sequences of that id,
    the pointer as it was, and this collection as the stored item when it is
    not empty (the stored item as it was when it is empty). *)
Theorem deleteSequence_other_settles (i : string) (p : Page)
  (Hother : activeSequence p <> Some i) :
  let kept := filter (fun s => negb (String.eqb (id s) i)) (sequences p) in
  exists settled,
    settle 1 (afterMutation (deleteSequence i) p) = Some settled /\
    sequences settled = kept /\
    activeSequence settled = activeSequence p /\
    localStorage settled
    = match kept with
      | [] => localStorage p
      | _ :: _ => Some kept
      end.
Proof.
  intros kept.
  assert (Hact : activeSequence (deleteSequence i p) = activeSequence p).
  { rewrite deleteSequence_active.
    destruct (is_active (activeSequence p) i) eqn:E; [|reflexivity].
    apply is_active_iff in E. contradiction. }
  exists (committed (deleteSequence i) p).
  split; [apply settle_without_load; left; exact Hact|].
  unfold committed.
  rewrite saved_sequences, saveSequencesEffect_active, saved_store.
  rewrite deleteSequence_sequences, deleteSequence_store.
  repeat split. exact Hact.
Qed.

Lemma deleteSequence_other_settles_witness :
  activeSequence page_ABC <> Some "C"%string /\
  exists settled,
    settle 1 (afterMutation (deleteSequence "C") page_ABC) = Some settled /\
    sequences settled = [seqA; seqB] /\
    localStorage settled = Some [seqA; seqB].
Proof.
  assert (Hother : activeSequence page_ABC <> Some "C"%string)
    by discriminate.
  split; [exact Hother|].
  destruct (deleteSequence_other_settles "C" page_ABC Hother)
    as (settled & H1 & H2 & _ & H4).
  exists settled. split; [exact H1|]. split; [exact H2 | exact H4].
Defined.

(** X2: deleting the sequence the pointer names is undone by the load
    effect.  When the stored item holds the collection, the pointer names
    one of its sequences and no id is empty, the page settles within three
    commits with the collection as it was before the deletion, the stored
    item likewise; the pointer names the first sequence with another id, or
    the deleted id again when there is no other. *)
Theorem deleteSequence_active_undone (i : string) (p : Page)
  (Hactive : activeSequence p = Some i)
  (Hvalid : activeValid p)
  (Hstored : localStorage p = Some (sequences p))
  (Hids : forall s, In s (sequences p) -> id s <> ""%string) :
  exists settled,
    settle 3 (afterMutation (deleteSequence i) p) = Some settled /\
    sequences settled = sequences p /\
    localStorage settled = Some (sequences p) /\
    activeSequence settled
    = match sequences (deleteSequence i p) with
      | first :: _ => Some (id first)
      | [] => Some i
      end.
Proof.
  unfold activeValid in Hvalid. rewrite Hactive in Hvalid.
  destruct Hvalid as (s & Hs & Hid).
  unfold afterMutation.
  rewrite (deleteSequence_of_active i p Hactive). cbv zeta.
  destruct p as [seqs act col rgb prev store ts].
  cbn [sequences activeSequence localStorage currentDrawingColor
       currentDrawingRgb previewSequence toasts] in *.
  subst act store.
  remember (filter (fun seq => negb (String.eqb (id seq) i)) seqs) as kept
    eqn:K.
  destruct seqs as [|s0 tl]; [contradiction|].
  assert (T0 : truthy (Some (id s0)) = true).
  { apply truthy_Some_nonempty, Hids. left. reflexivity. }
  destruct kept as [|first rest].
  - assert (E0 : id s0 = i).
    { cbn in K. destruct (String.eqb (id s0) i) eqn:B; [|discriminate].
      apply String.eqb_eq. exact B. }
    repeat (cbn -[truthy String.eqb]; change (truthy None) with false;
            rewrite ?T0, ?String.eqb_refl).
    eexists. split; [reflexivity|]. cbn. rewrite E0. repeat split.
  - assert (Hk : In first (filter (fun seq => negb (String.eqb (id seq) i))
                             (s0 :: tl))).
    { rewrite <- K. left. reflexivity. }
    apply filter_In in Hk. destruct Hk as [Hin Hne].
    apply kept_id_differs in Hne.
    assert (T : truthy (Some (id first)) = true).
    { apply truthy_Some_nonempty, Hids, Hin. }
    apply String.eqb_neq in Hne.
    repeat (cbn -[truthy String.eqb];
            rewrite ?Hne, ?T, ?String.eqb_refl).
    eexists. split; [reflexivity|]. cbn. repeat split.
Qed.

Lemma deleteSequence_active_undone_witness :
  activeSequence page_ABC = Some "B"%string /\
  activeValid page_ABC /\
  localStorage page_ABC = Some (sequences page_ABC) /\
  exists settled,
    settle 3 (afterMutation (deleteSequence "B") page_ABC) = Some settled /\
    sequences settled = [seqA; seqB; seqC].
Proof.
  assert (Hvalid : activeValid page_ABC).
  { exists seqB. split; [right; left; reflexivity | reflexivity]. }
  assert (Hids : forall s, In s (sequences page_ABC) -> id s <> ""%string).
  { intros s [<- | [<- | [<- | []]]]; discriminate. }
  split; [reflexivity|]. split; [exact Hvalid|]. split; [reflexivity|].
  destruct (deleteSequence_active_undone "B" page_ABC eq_refl Hvalid eq_refl
              Hids) as (settled & H1 & H2 & _).
  exists settled. split; [exact H1 | exact H2].
Defined.

(** X3: an addition is final after one commit when the pointer is truthy,
    or when there is no stored item for the load effect to restore.  The
    page settles with the new sequence behind the others, a truthy pointer
    as it was and any other pointer at the new id, no preview, and the new
    collection as the stored item. *)
Theorem addSequence_settles (s : DroneSequence) (p : Page)
  (Hload : truthy (activeSequence p) = true \/ localStorage p = None) :
  exists settled,
    settle 1 (afterMutation (addSequence s) p) = Some settled /\
    sequences settled = (sequences p ++ [s])%list /\
    activeSequence settled
    = (if truthy (activeSequence p) then activeSequence p else Some (id s)) /\
    previewSequence settled = None /\
    localStorage settled = Some (sequences p ++ [s])%list.
Proof.
  exists (committed (addSequence s) p).
  split.
  { apply settle_without_load. destruct Hload as [H | H].
    - left. rewrite addSequence_active, H. reflexivity.
    - right. rewrite addSequence_store. exact H. }
  unfold committed.
  rewrite saved_sequences, saveSequencesEffect_active, saved_store,
    saved_preview.
  rewrite addSequence_sequences, addSequence_active.
  split; [reflexivity|]. split; [reflexivity|].
  split.
  - unfold addSequence. destruct (negb (truthy (activeSequence p))); reflexivity.
  - destruct (sequences p); reflexivity.
Qed.

Lemma addSequence_settles_witness :
  (truthy (activeSequence page_A) = true \/ localStorage page_A = None) /\
  exists settled,
    settle 1 (afterMutation (addSequence seqB) page_A) = Some settled /\
    sequences settled = [seqA; seqB] /\
    activeSequence settled = Some "A"%string.
Proof.
  split; [left; reflexivity|].
  destruct (addSequence_settles seqB page_A (or_introl eq_refl))
    as (settled & H1 & H2 & H3 & _).
  exists settled. split; [exact H1|]. split; [exact H2 | exact H3].
Defined.

(** X4: an update by id is final after one commit, whatever the id and the
    fields.  The page settles with the given fields written over each
    sequence of that id, the pointer as it was, no preview, and the new
    collection as the stored item when it is not empty. *)
Theorem updateSequence_settles (i : string) (u : PartialSequence) (p : Page) :
  let updated :=
    map (fun seq => if String.eqb (id seq) i then spread seq u else seq)
        (sequences p) in
  exists settled,
    settle 1 (afterMutation (updateSequence i u) p) = Some settled /\
    sequences settled = updated /\
    activeSequence settled = activeSequence p /\
    previewSequence settled = None /\
    localStorage settled
    = match updated with
      | [] => localStorage p
      | _ :: _ => Some updated
      end.
Proof.
  intros updated.
  exists (committed (updateSequence i u) p).
  split; [apply settle_without_load; left; reflexivity|].
  unfold committed.
  rewrite saved_sequences, saveSequencesEffect_active, saved_store,
    saved_preview.
  repeat split.
Qed.

(** X5: an update by id that leaves the id alone or repeats it keeps the ids
    of the collection in their order and the pointer; the sequences with
    another id are the ones there were; each sequence with the id is a
    former one with the given fields written over it; and with no sequence
    of that id nothing changes. *)
Theorem updateSequence_by_id (i : string) (u : PartialSequence) (p : Page)
  (Hu : id_opt u = None \/ id_opt u = Some i) :
  let p' := updateSequence i u p in
  map id (sequences p') = map id (sequences p) /\
  activeSequence p' = activeSequence p /\
  (forall s, id s <> i -> (In s (sequences p') <-> In s (sequences p))) /\
  (forall s, In s (sequences p') -> id s = i ->
             exists s0, In s0 (sequences p) /\ id s0 = i /\ s = spread s0 u) /\
  ((forall s, In s (sequences p) -> id s <> i) ->
   sequences p' = sequences p).
Proof.
  intros p'. unfold p'.
  split; [apply updateSequence_ids, Hu|].
  split; [reflexivity|].
  rewrite updateSequence_sequences.
  split; [|split].
  - intros s Hs. rewrite in_map_iff. split.
    + intros (s0 & E & Hin).
      destruct (String.eqb (id s0) i) eqn:B.
      * apply String.eqb_eq in B. exfalso. apply Hs.
        rewrite <- E. apply (spread_keeps_id i u s0 Hu B).
      * subst s0. exact Hin.
    + intros Hin. exists s. split; [|exact Hin].
      apply String.eqb_neq in Hs. rewrite Hs. reflexivity.
  - intros s Hin Hs. apply in_map_iff in Hin. destruct Hin as (s0 & E & Hin).
    destruct (String.eqb (id s0) i) eqn:B.
    + apply String.eqb_eq in B. exists s0. repeat split; congruence.
    + apply String.eqb_neq in B. congruence.
  - intros Habsent. rewrite <- (map_id (sequences p)) at 2.
    apply map_ext_in. intros s Hin.
    specialize (Habsent s Hin). apply String.eqb_neq in Habsent.
    rewrite Habsent. reflexivity.
Qed.

Lemma updateSequence_by_id_witness :
  (id_opt (partial seqB) = None \/ id_opt (partial seqB) = Some "B"%string) /\
  map id (sequences (updateSequence "B" (partial seqB) page_ABC))
  = ["A"; "B"; "C"]%string.
Proof.
  split; [right; reflexivity|].
  exact (proj1 (updateSequence_by_id "B" (partial seqB) page_ABC
                  (or_intror eq_refl))).
Defined.

(* ------------------------------------------------------------------ *)
(** ** The draft and the collection *)

Section DraftHandlers.

Variable Number_toString : number -> string.
Variable Math_cos Math_sin : number -> number.
Variable Math_PI : number.

(** X6: adding a waypoint, clearing, starting a new sequence, renaming, a
    generated preview and a rejected save work on the draft only: the
    collection, the active pointer and the stored item stay as they are. *)
Theorem draft_handlers_keep_store (a : App) :
  (forall e front now, sameStore a (handleCanvasClick e front now a)) /\
  sameStore a (clearCanvas a) /\
  sameStore a (createNewSequence a) /\
  (forall n, sameStore a (handleSequenceNameChange n a)) /\
  (forall s, sameStore a (onPreviewSequence s a)) /\
  (forall flight led now timeString,
      sameStore a (generateCirclePattern Number_toString Math_cos Math_sin
                     Math_PI flight led now timeString a) /\
      sameStore a (generateFigure8Pattern Number_toString Math_sin Math_PI
                     flight led now timeString a) /\
      sameStore a (generateSpiralPattern Number_toString Math_cos Math_sin
                     Math_PI flight led now timeString a) /\
      sameStore a (generateFormationPattern Number_toString flight led now
                     timeString a)) /\
  (forall now, unsavedPoints (canvas a) = [] ->
               sameStore a (saveSequence Number_toString now a)).
Proof.
  unfold sameStore.
  split; [|split; [|split; [|split; [|split; [|split]]]]].
  - intros e front now. unfold handleCanvasClick.
    destruct (canvasCoordinates e).
    destruct (previewSequence (page a)); repeat split.
  - repeat split.
  - repeat split.
  - intros n. repeat split.
  - intros s. repeat split.
  - intros flight led now timeString. repeat split.
  - intros now E. unfold saveSequence. rewrite E. repeat split.
Qed.

End DraftHandlers.

Lemma draft_handlers_keep_store_witness :
  unsavedPoints (canvas app_A) = [] /\
  sameStore app_A (saveSequence printNumber 1700000000000 app_A).
Proof.
  split; [reflexivity|].
  apply (draft_handlers_keep_store printNumber seriesCos seriesSin ratioPI
           app_A).
  reflexivity.
Defined.

(** X7: after Clear the draft is empty, not marked unsaved and no preview is
    left, yet the canvas goes on showing the waypoints of the active
    sequence, if there is one; and a Save pressed next is rejected, so the
    collection keeps the sequence as it was. *)
Theorem clearCanvas_shows_active_sequence
  (Number_toString : number -> string) (now : number) (a : App) :
  let a' := clearCanvas a in
  unsavedPoints (canvas a') = [] /\
  hasUnsavedChanges (canvas a') = false /\
  sequenceName (canvas a') = sequenceName (canvas a) /\
  previewSequence (page a') = None /\
  pointsToShow a'
  = match activeSeq (page a) with
    | Some s => points s
    | None => []
    end /\
  sequences (page (saveSequence Number_toString now a'))
  = sequences (page a).
Proof.
  repeat split.
Qed.

Lemma activeSeq_Some p s :
  activeSeq p = Some s ->
  activeSequence p = Some (id s) /\ In s (sequences p).
Proof.
  unfold activeSeq. intros H. apply find_some in H. destruct H as [Hin Hact].
  apply is_active_iff in Hact. split; assumption.
Qed.

Lemma spread_partial seq s : spread seq (partial s) = s.
Proof. destruct s. reflexivity. Qed.

Lemma find_replaced (i : string) (saved : DroneSequence)
  (l : list DroneSequence) :
  id saved = i ->
  find (fun seq => String.eqb i (id seq))
       (map (fun seq => if String.eqb (id seq) i then saved else seq) l)
  = option_map (fun _ => saved) (find (fun seq => String.eqb i (id seq)) l).
Proof.
  intros E. induction l as [|s l IH]; cbn; [reflexivity|].
  rewrite (String.eqb_sym i (id s)).
  destruct (String.eqb (id s) i) eqn:B.
  - rewrite E, String.eqb_refl. reflexivity.
  - rewrite (String.eqb_sym i (id s)), B. exact IH.
Qed.

Lemma committed_fields (mutation : Page -> Page) (p : Page) :
  sequences (committed mutation p) = sequences (mutation p) /\
  activeSequence (committed mutation p) = activeSequence (mutation p) /\
  previewSequence (committed mutation p) = previewSequence (mutation p).
Proof.
  unfold committed, saveSequencesEffect.
  destruct (0 <? length (sequences (mutation p)))%nat; repeat split.
Qed.

Lemma saveSequence_update_eq (Number_toString : number -> string)
  (now : number) (a : App) (s : DroneSequence) :
  unsavedPoints (canvas a) <> [] ->
  activeSeq (page a) = Some s ->
  truthy (Some (id s)) = true ->
  saveSequence Number_toString now a
  = let saved := newSequence Number_toString (Some s) now (canvas a) in
    let pg :=
      clearPreview
        (toast {| title := "Sequence Updated";
                  description := savedDescription Number_toString (canvas a);
                  variant := None |}
           (committed (updateSequence (id s) (partial saved)) (page a))) in
    {| page := pg;
       canvas := sequenceEffect (activeSeq pg)
                   (setHasUnsavedChanges false (canvas a)) |}.
Proof.
  intros Hdraft Hs Hid.
  destruct (activeSeq_Some _ _ Hs) as [Hact _].
  unfold saveSequence.
  destruct (unsavedPoints (canvas a)) as [|pt rest] eqn:E; [contradiction|].
  cbn [length Nat.eqb]. rewrite Hs, Hact. cbv beta iota. rewrite Hid.
  reflexivity.
Qed.

(** A save over the active sequence, step by step. *)
Lemma saveSequence_update (Number_toString : number -> string)
  (now : number) (a : App) (s : DroneSequence) :
  unsavedPoints (canvas a) <> [] ->
  activeSeq (page a) = Some s ->
  truthy (Some (id s)) = true ->
  let saved := newSequence Number_toString (Some s) now (canvas a) in
  let a' := saveSequence Number_toString now a in
  id saved = id s /\
  sequences (page a')
  = map (fun seq => if String.eqb (id seq) (id s) then saved else seq)
        (sequences (page a)) /\
  activeSequence (page a') = Some (id s) /\
  activeSeq (page a') = Some saved /\
  previewSequence (page a') = None /\
  localStorage (page a') = Some (sequences (page a')) /\
  canvas a' = sequenceEffect (Some saved) (setHasUnsavedChanges false (canvas a)).
Proof.
  intros Hdraft Hs Hid saved a'.
  destruct (activeSeq_Some _ _ Hs) as [Hact Hin].
  assert (Esaved : id saved = id s).
  { unfold saved, newSequence. cbn [id]. rewrite Hid. reflexivity. }
  pose proof (saveSequence_update_eq Number_toString now a s Hdraft Hs Hid)
    as Ea.
  fold a' in Ea. cbv zeta in Ea. fold saved in Ea.
  destruct (committed_fields (updateSequence (id s) (partial saved)) (page a))
    as (C1 & C2 & C3).
  assert (Eseq : sequences (page a')
                 = map (fun seq => if String.eqb (id seq) (id s) then saved
                                   else seq) (sequences (page a))).
  { rewrite Ea. cbn [page clearPreview setPreviewSequence toast sequences].
    rewrite C1, updateSequence_sequences.
    apply map_ext. intros seq. rewrite spread_partial. reflexivity. }
  assert (Eact : activeSequence (page a') = Some (id s)).
  { rewrite Ea. cbn [page clearPreview setPreviewSequence toast activeSequence].
    rewrite C2. exact Hact. }
  assert (Enew : activeSeq (page a') = Some saved).
  { unfold activeSeq. rewrite Eact, Eseq. cbn [is_active].
    rewrite (find_replaced (id s) saved _ Esaved).
    unfold activeSeq in Hs. rewrite Hact in Hs. cbn [is_active] in Hs.
    rewrite Hs. reflexivity. }
  split; [exact Esaved|]. split; [exact Eseq|]. split; [exact Eact|].
  split; [exact Enew|].
  split; [rewrite Ea; reflexivity|].
  split.
  - rewrite Ea at 1.
    cbn [page clearPreview setPreviewSequence toast localStorage].
    rewrite committed_persists_nonempty.
    + rewrite C1. f_equal. rewrite Eseq, updateSequence_sequences.
      apply map_ext. intros seq. rewrite spread_partial. reflexivity.
    + rewrite updateSequence_sequences.
      destruct (sequences (page a)); [contradiction | discriminate].
  - pose proof Enew as Enew'. rewrite Ea in Enew'. cbn [page] in Enew'.
    rewrite Ea. cbn [canvas]. rewrite Enew'. reflexivity.
Qed.

(** X8: a save over the active sequence writes the draft under the id the
    sequence had.  Every sequence with that id becomes the saved one (name
    and waypoints of the draft, duration the largest timestamp plus 1000),
    the others and the order stay; the pointer stays; the preview is
    cleared; the stored item is the new collection; and the draft is the
    saved sequence, not marked unsaved. *)
Theorem saveSequence_overwrites_active (Number_toString : number -> string)
  (now : number) (a : App) (s : DroneSequence)
  (Hdraft : unsavedPoints (canvas a) <> [])
  (Hactive : activeSeq (page a) = Some s)
  (Hid : id s <> ""%string) :
  let a' := saveSequence Number_toString now a in
  exists saved,
    id saved = id s /\
    name saved = sequenceName (canvas a) /\
    points saved = unsavedPoints (canvas a) /\
    duration saved = Math_max (map timestamp (unsavedPoints (canvas a))) + 1000 /\
    sequences (page a')
    = map (fun seq => if String.eqb (id seq) (id s) then saved else seq)
          (sequences (page a)) /\
    activeSequence (page a') = activeSequence (page a) /\
    activeSeq (page a') = Some saved /\
    previewSequence (page a') = None /\
    localStorage (page a') = Some (sequences (page a')) /\
    unsavedPoints (canvas a') = unsavedPoints (canvas a) /\
    sequenceName (canvas a') = sequenceName (canvas a) /\
    hasUnsavedChanges (canvas a') = false.
Proof.
  intros a'.
  apply truthy_Some_nonempty in Hid.
  destruct (saveSequence_update Number_toString now a s Hdraft Hactive Hid)
    as (E1 & E2 & E3 & E4 & E5 & E6 & E7).
  exists (newSequence Number_toString (Some s) now (canvas a)).
  destruct (activeSeq_Some _ _ Hactive) as [Hact _].
  split; [exact E1|]. split; [reflexivity|]. split; [reflexivity|].
  split.
  { cbn. destruct (unsavedPoints (canvas a)); [contradiction | reflexivity]. }
  split; [exact E2|]. split; [rewrite Hact; exact E3|]. split; [exact E4|].
  split; [exact E5|]. split; [exact E6|].
  unfold a'. rewrite E7. repeat split.
Qed.

Lemma saveSequence_overwrites_active_witness :
  unsavedPoints (canvas app_clicked) <> [] /\
  activeSeq (page app_clicked) = Some seqA /\
  map id (sequences (page (saveSequence printNumber 1700000000002
                             app_clicked)))
  = ["A"%string].
Proof.
  assert (Hdraft : unsavedPoints (canvas app_clicked) <> []) by discriminate.
  assert (Hid : id seqA <> ""%string) by discriminate.
  split; [exact Hdraft|]. split; [reflexivity|].
  destruct (saveSequence_overwrites_active printNumber 1700000000002
              app_clicked seqA Hdraft eq_refl Hid)
    as (saved & E1 & _ & _ & _ & E5 & _).
  rewrite E5. cbn. rewrite E1. reflexivity.
Defined.

Lemma find_app_fresh {A : Type} (f : A -> bool) (l : list A) (v : A) :
  (forall w, In w l -> f w = false) ->
  find f (l ++ [v]) = if f v then Some v else None.
Proof.
  induction l as [|w l IH]; intros H; cbn; [reflexivity|].
  rewrite (H w (or_introl eq_refl)). apply IH.
  intros w' Hw'. apply H. right. exact Hw'.
Qed.

Lemma saveSequence_add_eq (Number_toString : number -> string)
  (now : number) (a : App) :
  unsavedPoints (canvas a) <> [] ->
  activeSeq (page a) = None ->
  saveSequence Number_toString now a
  = let saved := newSequence Number_toString None now (canvas a) in
    let pg :=
      clearPreview
        (toast {| title := "New Sequence Created";
                  description := savedDescription Number_toString (canvas a);
                  variant := None |}
           (committed (addSequence saved) (page a))) in
    {| page := pg;
       canvas := match activeSeq pg with
                 | Some s => sequenceEffect (Some s)
                               (setHasUnsavedChanges false (canvas a))
                 | None => setHasUnsavedChanges false (canvas a)
                 end |}.
Proof.
  intros Hdraft Hs. unfold saveSequence.
  destruct (unsavedPoints (canvas a)) as [|pt rest] eqn:E; [contradiction|].
  cbn [length Nat.eqb]. rewrite Hs. reflexivity.
Qed.

(** A save without an active sequence, step by step. *)
Lemma saveSequence_add (Number_toString : number -> string)
  (now : number) (a : App) :
  unsavedPoints (canvas a) <> [] ->
  activeSeq (page a) = None ->
  let saved := newSequence Number_toString None now (canvas a) in
  let a' := saveSequence Number_toString now a in
  sequences (page a') = (sequences (page a) ++ [saved])%list /\
  activeSequence (page a')
  = (if truthy (activeSequence (page a)) then activeSequence (page a)
     else Some (Number_toString now)) /\
  previewSequence (page a') = None /\
  localStorage (page a') = Some (sequences (page a')) /\
  canvas a' = match activeSeq (page a') with
              | Some s => sequenceEffect (Some s)
                            (setHasUnsavedChanges false (canvas a))
              | None => setHasUnsavedChanges false (canvas a)
              end.
Proof.
  intros Hdraft Hs saved a'.
  pose proof (saveSequence_add_eq Number_toString now a Hdraft Hs) as Ea.
  fold a' in Ea. cbv zeta in Ea. fold saved in Ea.
  destruct (committed_fields (addSequence saved) (page a)) as (C1 & C2 & C3).
  assert (Eseq : sequences (page a') = (sequences (page a) ++ [saved])%list).
  { rewrite Ea. cbn [page clearPreview setPreviewSequence toast sequences].
    rewrite C1. apply addSequence_sequences. }
  split; [exact Eseq|]. split.
  { rewrite Ea. cbn [page clearPreview setPreviewSequence toast activeSequence].
    rewrite C2. apply addSequence_active. }
  split; [rewrite Ea; reflexivity|]. split.
  { rewrite Ea at 1.
    cbn [page clearPreview setPreviewSequence toast localStorage].
    rewrite addSequence_persisted, C1, Eseq, addSequence_sequences.
    reflexivity. }
  assert (Epage : page a' = clearPreview
            (toast {| title := "New Sequence Created";
                      description := savedDescription Number_toString (canvas a);
                      variant := None |}
               (committed (addSequence saved) (page a)))).
  { rewrite Ea. reflexivity. }
  rewrite Epage. rewrite Ea. reflexivity.
Qed.

(** X9: a save without an active sequence appends the draft as a new
    sequence: id the printed clock, name and waypoints of the draft,
    duration the largest timestamp plus 1000.  With a truthy pointer, or
    with no stored item for the load effect to restore, the page is settled
    after one commit: the sequences there were stay in front of the new one;
    a truthy pointer stays, else the pointer becomes the new id; the preview
    is cleared and the stored item is the new collection.  When the pointer was not truthy and the new id is not empty
    and not the id of a stored sequence, the new sequence is the active one
    and the draft still holds its waypoints, not marked unsaved. *)
Theorem saveSequence_appends_new (Number_toString : number -> string)
  (now : number) (a : App)
  (Hdraft : unsavedPoints (canvas a) <> [])
  (Hnone : activeSeq (page a) = None)
  (Hload : truthy (activeSequence (page a)) = true \/
           localStorage (page a) = None) :
  let a' := saveSequence Number_toString now a in
  let saved :=
    {| id := Number_toString now;
       name := sequenceName (canvas a);
       points := unsavedPoints (canvas a);
       duration :=
         Math_max (map timestamp (unsavedPoints (canvas a))) + 1000 |} in
  (exists settled,
      settle 1 (afterMutation (addSequence saved) (page a)) = Some settled /\
      sequences (page a') = sequences settled /\
      activeSequence (page a') = activeSequence settled /\
      localStorage (page a') = localStorage settled) /\
  sequences (page a') = (sequences (page a) ++ [saved])%list /\
  activeSequence (page a')
  = (if truthy (activeSequence (page a)) then activeSequence (page a)
     else Some (Number_toString now)) /\
  previewSequence (page a') = None /\
  localStorage (page a') = Some (sequences (page a')) /\
  (truthy (activeSequence (page a)) = false ->
   Number_toString now <> ""%string ->
   (forall s, In s (sequences (page a)) -> id s <> Number_toString now) ->
   activeSeq (page a') = Some saved /\
   unsavedPoints (canvas a') = unsavedPoints (canvas a) /\
   sequenceName (canvas a') = sequenceName (canvas a) /\
   hasUnsavedChanges (canvas a') = false).
Proof.
  intros a' saved.
  assert (Esaved : newSequence Number_toString None now (canvas a) = saved).
  { unfold newSequence, saved.
    destruct (unsavedPoints (canvas a)); [contradiction | reflexivity]. }
  destruct (saveSequence_add Number_toString now a Hdraft Hnone)
    as (E1 & E2 & E3 & E4 & E5).
  rewrite Esaved in E1. fold a' in E1, E2, E3, E4, E5.
  split.
  { exists (committed (addSequence saved) (page a)).
    split.
    { apply settle_without_load. destruct Hload as [H | H].
      - left. rewrite addSequence_active, H. reflexivity.
      - right. rewrite addSequence_store. exact H. }
    destruct (committed_fields (addSequence saved) (page a)) as (C1 & C2 & _).
    rewrite C1, C2, addSequence_persisted, C1, addSequence_sequences,
      addSequence_active.
    split; [exact E1|]. split; [exact E2|].
    rewrite E4, E1. reflexivity. }
  split; [exact E1|]. split; [exact E2|]. split; [exact E3|].
  split; [exact E4|].
  intros Hfalsy Hne Hfresh.
  assert (Enew : activeSeq (page a') = Some saved).
  { unfold activeSeq. rewrite E1, E2, Hfalsy. rewrite find_app_fresh.
    - cbn. rewrite String.eqb_refl. reflexivity.
    - intros s Hs. cbn. apply String.eqb_neq.
      intros E. apply (Hfresh s Hs). congruence. }
  split; [exact Enew|]. rewrite E5, Enew. repeat split.
Qed.

Lemma saveSequence_appends_new_witness :
  unsavedPoints (canvas app_previewing) <> [] /\
  activeSeq (page app_previewing) = None /\
  map id (sequences (page (saveSequence printNumber 1700000000003
                             app_previewing)))
  = ["1700000000003"%string].
Proof.
  assert (Hdraft : unsavedPoints (canvas app_previewing) <> [])
    by discriminate.
  split; [exact Hdraft|]. split; [reflexivity|].
  destruct (saveSequence_appends_new printNumber 1700000000003
              app_previewing Hdraft eq_refl (or_intror eq_refl))
    as (_ & E1 & _).
  rewrite E1. reflexivity.
Defined.

Lemma map_replace_same (saved : DroneSequence) (l : list DroneSequence) :
  (forall seq, In seq l -> id seq = id saved -> seq = saved) ->
  map (fun seq => if String.eqb (id seq) (id saved) then saved else seq) l = l.
Proof.
  intros H. rewrite <- (map_id l) at 2. apply map_ext_in. intros seq Hin.
  destruct (String.eqb (id seq) (id saved)) eqn:E; [|reflexivity].
  apply String.eqb_eq in E. symmetry. apply H; assumption.
Qed.

(** Saving again what a save left: nothing but the notices changes. *)
Lemma saveSequence_again (Number_toString : number -> string)
  (now : number) (a : App) (saved : DroneSequence) (c : Canvas) :
  activeSeq (page a) = Some saved ->
  truthy (Some (id saved)) = true ->
  canvas a = sequenceEffect (Some saved) c ->
  points saved <> [] ->
  duration saved = Math_max (map timestamp (points saved)) + 1000 ->
  (forall seq, In seq (sequences (page a)) -> id seq = id saved ->
               seq = saved) ->
  localStorage (page a) = Some (sequences (page a)) ->
  let a' := saveSequence Number_toString now a in
  sequences (page a') = sequences (page a) /\
  activeSequence (page a') = activeSequence (page a) /\
  localStorage (page a') = localStorage (page a) /\
  canvas a' = canvas a.
Proof.
  intros Hs Hid Hc Hpts Hdur Hsame Hstore a'.
  assert (Hdraft : unsavedPoints (canvas a) <> []).
  { rewrite Hc. exact Hpts. }
  destruct (saveSequence_update Number_toString now a saved Hdraft Hs Hid)
    as (E1 & E2 & E3 & E4 & E5 & E6 & E7).
  fold a' in E2, E3, E4, E5, E6, E7.
  assert (Eagain : newSequence Number_toString (Some saved) now (canvas a)
                   = saved).
  { unfold newSequence. rewrite Hid, Hc. cbn.
    destruct saved as [i n pts d]. cbn in *. subst d.
    destruct pts; [contradiction | reflexivity]. }
  rewrite Eagain in E2, E7.
  rewrite (map_replace_same saved _ Hsame) in E2.
  destruct (activeSeq_Some _ _ Hs) as [Hact _].
  split; [exact E2|]. split; [congruence|]. split; [congruence|].
  rewrite E7, Hc. destruct c. reflexivity.
Qed.

(** X10: a second save right after a save changes nothing but the notices:
    the collection, the pointer, the stored item and the draft are those the
    first save left, and no second sequence is created.  This holds when the
    active sequence has an id that is not empty, and, without an active
    sequence, when the pointer is not truthy, nothing is stored yet, and the
    printed clock is not empty and not the id of a stored sequence. *)
Theorem saveSequence_twice (Number_toString : number -> string)
  (now now' : number) (a : App)
  (Hdraft : unsavedPoints (canvas a) <> [])
  (Hactive : forall s, activeSeq (page a) = Some s -> id s <> ""%string)
  (Hnone : activeSeq (page a) = None ->
           truthy (activeSequence (page a)) = false /\
           localStorage (page a) = None /\
           Number_toString now <> ""%string /\
           forall s, In s (sequences (page a)) ->
                     id s <> Number_toString now) :
  let a1 := saveSequence Number_toString now a in
  let a2 := saveSequence Number_toString now' a1 in
  sequences (page a2) = sequences (page a1) /\
  activeSequence (page a2) = activeSequence (page a1) /\
  localStorage (page a2) = localStorage (page a1) /\
  canvas a2 = canvas a1.
Proof.
  intros a1 a2.
  destruct (activeSeq (page a)) as [s|] eqn:Hs.
  - specialize (Hactive s eq_refl). apply truthy_Some_nonempty in Hactive.
    destruct (saveSequence_update Number_toString now a s Hdraft Hs Hactive)
      as (E1 & E2 & E3 & E4 & E5 & E6 & E7).
    fold a1 in E2, E3, E4, E5, E6, E7.
    set (saved := newSequence Number_toString (Some s) now (canvas a)) in *.
    apply (saveSequence_again Number_toString now' a1 saved
             (setHasUnsavedChanges false (canvas a))).
    + exact E4.
    + rewrite E1. exact Hactive.
    + exact E7.
    + exact Hdraft.
    + unfold saved. cbn.
      destruct (unsavedPoints (canvas a)); [contradiction | reflexivity].
    + intros seq Hin Hseq. rewrite E2 in Hin. apply in_map_iff in Hin.
      destruct Hin as (seq0 & E & _).
      destruct (String.eqb (id seq0) (id s)) eqn:B; [congruence|].
      apply String.eqb_neq in B. congruence.
    + exact E6.
  - destruct (Hnone eq_refl) as (Hfalsy & _ & Hne & Hfresh).
    destruct (saveSequence_add Number_toString now a Hdraft Hs)
      as (E1 & E2 & E3 & E4 & E5).
    fold a1 in E1, E2, E3, E4, E5.
    set (saved := newSequence Number_toString None now (canvas a)) in *.
    assert (Eid : id saved = Number_toString now) by reflexivity.
    assert (Enew : activeSeq (page a1) = Some saved).
    { unfold activeSeq. rewrite E1, E2, Hfalsy. rewrite find_app_fresh.
      - cbn. rewrite String.eqb_refl. reflexivity.
      - intros s Hin. cbn. apply String.eqb_neq.
        intros E. apply (Hfresh s Hin). congruence. }
    rewrite Enew in E5.
    apply (saveSequence_again Number_toString now' a1 saved
             (setHasUnsavedChanges false (canvas a))).
    + exact Enew.
    + rewrite Eid. apply truthy_Some_nonempty. exact Hne.
    + exact E5.
    + exact Hdraft.
    + unfold saved. cbn.
      destruct (unsavedPoints (canvas a)); [contradiction | reflexivity].
    + intros seq Hin Hseq. rewrite E1 in Hin. apply in_app_or in Hin.
      destruct Hin as [Hin | [<- | []]]; [|reflexivity].
      exfalso. apply (Hfresh seq Hin). congruence.
    + exact E4.
Qed.

Lemma saveSequence_twice_witness :
  unsavedPoints (canvas app_previewing) <> [] /\
  sequences (page (saveSequence printNumber 1700000000005
                     (saveSequence printNumber 1700000000003
                        app_previewing)))
  = sequences (page (saveSequence printNumber 1700000000003 app_previewing)).
Proof.
  assert (Hdraft : unsavedPoints (canvas app_previewing) <> [])
    by discriminate.
  split; [exact Hdraft|].
  refine (proj1 (saveSequence_twice printNumber 1700000000003 1700000000005
                   app_previewing Hdraft _ _)).
  - intros s Hs. discriminate Hs.
  - intros _. split; [reflexivity|]. split; [reflexivity|].
    split; [discriminate|]. intros s [].
Defined.

Lemma activeSeq_ext p p' :
  sequences p' = sequences p -> activeSequence p' = activeSequence p ->
  activeSeq p' = activeSeq p.
Proof. unfold activeSeq. intros -> ->. reflexivity. Qed.

(** X11: New resets the draft and its name but leaves the active pointer, so
    the save after the next click writes over the active sequence: the
    collection keeps its ids, and the sequence that was active now has the
    name "New Sequence" and the clicked waypoint as its only waypoint. *)
Theorem createNewSequence_then_save_overwrites
  (Number_toString : number -> string) (e : MouseEvent) (front : bool)
  (now now' : number) (a : App) (s : DroneSequence)
  (Hactive : activeSeq (page a) = Some s)
  (Hid : id s <> ""%string) :
  let a1 := createNewSequence a in
  let a2 := handleCanvasClick e front now a1 in
  let a3 := saveSequence Number_toString now' a2 in
  unsavedPoints (canvas a1) = [] /\
  sequenceName (canvas a1) = "New Sequence"%string /\
  unsavedPoints (canvas a2) = [clickedPoint e front now a] /\
  map id (sequences (page a3)) = map id (sequences (page a)) /\
  length (sequences (page a3)) = length (sequences (page a)) /\
  exists saved,
    activeSeq (page a3) = Some saved /\
    id saved = id s /\
    name saved = "New Sequence"%string /\
    points saved = [clickedPoint e front now a].
Proof.
  intros a1 a2 a3.
  assert (Hdraft2 : unsavedPoints (canvas a2) = [clickedPoint e front now a]).
  { unfold a2. rewrite handleCanvasClick_canvas. reflexivity. }
  assert (Hstore : sameStore a a2).
  { unfold sameStore, a2, handleCanvasClick.
    destruct (canvasCoordinates e).
    destruct (previewSequence (page a1)); repeat split. }
  destruct Hstore as (S1 & S2 & _).
  assert (Hs2 : activeSeq (page a2) = Some s).
  { rewrite (activeSeq_ext _ _ S1 S2). exact Hactive. }
  assert (Hne : unsavedPoints (canvas a2) <> []).
  { rewrite Hdraft2. discriminate. }
  apply truthy_Some_nonempty in Hid.
  destruct (saveSequence_update Number_toString now' a2 s Hne Hs2 Hid)
    as (E1 & E2 & _ & E4 & _).
  fold a3 in E2, E4.
  split; [reflexivity|]. split; [reflexivity|]. split; [exact Hdraft2|].
  split.
  { rewrite E2, S1, map_map. apply map_ext. intros seq.
    destruct (String.eqb (id seq) (id s)) eqn:B; [|reflexivity].
    apply String.eqb_eq in B. congruence. }
  split.
  { rewrite E2, S1. apply length_map. }
  exists (newSequence Number_toString (Some s) now' (canvas a2)).
  split; [exact E4|]. split; [exact E1|].
  split.
  - cbn [name newSequence]. unfold a2. rewrite handleCanvasClick_canvas.
    reflexivity.
  - cbn [points newSequence]. exact Hdraft2.
Qed.

Lemma createNewSequence_then_save_overwrites_witness :
  activeSeq (page app_A) = Some seqA /\
  map id (sequences (page (saveSequence printNumber 1700000000009
            (handleCanvasClick click_100_60 false 1700000000008
               (createNewSequence app_A)))))
  = ["A"%string].
Proof.
  split; [reflexivity|].
  assert (Hid : id seqA <> ""%string) by discriminate.
  destruct (createNewSequence_then_save_overwrites printNumber click_100_60
              false 1700000000008 1700000000009 app_A seqA eq_refl Hid)
    as (_ & _ & _ & E & _).
  exact E.
Defined.

(** X12: a generated pattern that is saved keeps its waypoints and its name,
    but not its duration: the saved duration is the last timestamp plus
    1000, that is 12000 for the circle (as generated), 16200 for the
    figure-8 (generated with 16000), 14800 for the spiral (14400) and 9600
    for the formation (14000). *)
Theorem saved_pattern_durations
  (Number_toString : number -> string) (Math_cos Math_sin : number -> number)
  (Math_PI : number) (flight : FlightSettings.t) (led : LedSettings.t)
  (now now' : number) (timeString : string) (a : App)
  (shown : option DroneSequence) :
  let circle := circlePattern Number_toString Math_cos Math_sin Math_PI
                  flight led now timeString in
  let figure8 := figure8Pattern Number_toString Math_sin Math_PI
                   flight led now timeString in
  let spiral := spiralPattern Number_toString Math_cos Math_sin Math_PI
                  flight led now timeString in
  let formation := formationPattern Number_toString flight led now
                     timeString in
  let savedCircle :=
    newSequence Number_toString shown now'
      (canvas (generateCirclePattern Number_toString Math_cos Math_sin
                 Math_PI flight led now timeString a)) in
  let savedFigure8 :=
    newSequence Number_toString shown now'
      (canvas (generateFigure8Pattern Number_toString Math_sin Math_PI
                 flight led now timeString a)) in
  let savedSpiral :=
    newSequence Number_toString shown now'
      (canvas (generateSpiralPattern Number_toString Math_cos Math_sin
                 Math_PI flight led now timeString a)) in
  let savedFormation :=
    newSequence Number_toString shown now'
      (canvas (generateFormationPattern Number_toString flight led now
                 timeString a)) in
  (points savedCircle = points circle /\ name savedCircle = name circle /\
   duration circle = 12000 /\ duration savedCircle = 12000) /\
  (points savedFigure8 = points figure8 /\
   name savedFigure8 = name figure8 /\
   duration figure8 = 16000 /\ duration savedFigure8 = 16200) /\
  (points savedSpiral = points spiral /\ name savedSpiral = name spiral /\
   duration spiral = 14400 /\ duration savedSpiral = 14800) /\
  (points savedFormation = points formation /\
   name savedFormation = name formation /\
   duration formation = 14000 /\ duration savedFormation = 9600).
Proof.
  cbv zeta.
  repeat split; try reflexivity; vm_compute; reflexivity.
Qed.

(* ------------------------------------------------------------------ *)
(** ** Playback over time *)

Lemma div_Fin (a d : Q) : ~ (d == 0)%Q -> Fin a / Fin d = Fin (a / d).
Proof.
  intros H. cbn. destruct (Qeq_bool d 0) eqn:E; [|reflexivity].
  apply Qeq_bool_iff in E. contradiction.
Qed.

(** The remainder of a dividend that is not negative by a positive divisor
    is the dividend less a whole number of divisors, and lies below the
    divisor. *)
Lemma rem_bounds (a d : Q) :
  (0 <= a)%Q -> (0 < d)%Q ->
  exists r : Q, Fin a mod Fin d = Fin r /\ (0 <= r)%Q /\ (r < d)%Q /\
                (r == a - d * inject_Z (Qfloor (a / d)))%Q.
Proof.
  intros Ha Hd. cbn.
  destruct (Qeq_bool d 0) eqn:E.
  { apply Qeq_bool_iff in E. lra. }
  assert (Hq : (0 <= a / d)%Q).
  { apply Qle_shift_div_l; [exact Hd | lra]. }
  unfold Qtrunc. apply Qle_bool_iff in Hq. rewrite Hq.
  apply Qle_bool_iff in Hq.
  exists (a - d * inject_Z (Qfloor (a / d)))%Q.
  split; [reflexivity|].
  pose proof (Qfloor_le (a / d)) as H1.
  pose proof (Qlt_floor (a / d)) as H2.
  assert (Eq : (a / d * d == a)%Q) by (field; lra).
  rewrite inject_Z_plus in H2. change (inject_Z 1) with 1%Q in H2.
  set (k := inject_Z (Qfloor (a / d))) in *. set (q := (a / d)%Q) in *.
  assert (H3 : (k * d <= q * d)%Q) by (apply Qmult_le_compat_r; lra).
  assert (H4 : (q * d < (k + 1) * d)%Q) by (apply Qmult_lt_compat_r; lra).
  split; [lra|]. split; [lra | reflexivity].
Qed.

Lemma index_nat {A : Type} (l : list A) (k : Z) (v : Q) :
  (0 <= k)%Z -> (v == inject_Z k)%Q ->
  index l (Fin v) = nth_error l (Z.to_nat k).
Proof.
  intros Hk Hv. unfold index.
  assert (Ef : Qfloor v = k).
  { rewrite (Qfloor_comp _ _ Hv). apply Qfloor_Z. }
  rewrite Ef.
  assert (E1 : Qeq_bool (inject_Z k) v = true).
  { apply Qeq_bool_iff. symmetry. exact Hv. }
  rewrite E1. apply Z.leb_le in Hk. rewrite Hk. reflexivity.
Qed.

Lemma nth_error_below {A : Type} (l : list A) (k : nat) :
  (k < length l)%nat -> exists v, nth_error l k = Some v.
Proof.
  intros H. destruct (nth_error l k) as [v|] eqn:E.
  - exists v. reflexivity.
  - apply nth_error_None in E. lia.
Qed.

(** The whole part and the rest of a fraction of the way along [m]
    segments. *)
Lemma floor_of_progress (p w : Q) (m : Z) :
  (0 <= p)%Q -> (p < 1)%Q -> (0 < m)%Z -> (w == inject_Z m)%Q ->
  let q := (p * w)%Q in
  (0 <= Qfloor q < m)%Z /\
  (0 <= q - inject_Z (Qfloor q))%Q /\ (q - inject_Z (Qfloor q) < 1)%Q.
Proof.
  intros Hp0 Hp1 Hm Hw q.
  assert (Hm' : (0 < inject_Z m)%Q).
  { change 0%Q with (inject_Z 0). rewrite <- Zlt_Qlt. exact Hm. }
  assert (Hq0 : (0 <= q)%Q) by (unfold q; nra).
  assert (Hq1 : (q < inject_Z m)%Q) by (unfold q; nra).
  pose proof (Qfloor_le q) as H1.
  pose proof (Qlt_floor q) as H2.
  rewrite inject_Z_plus in H2. change (inject_Z 1) with 1%Q in H2.
  split; [|split; lra].
  split.
  - apply (Qfloor_resp_le 0%Q q) in Hq0. exact Hq0.
  - rewrite Zlt_Qlt. lra.
Qed.

Lemma progress_bounds (r d : Q) :
  (0 <= r)%Q -> (r < d)%Q -> (0 <= r / d)%Q /\ (r / d < 1)%Q.
Proof.
  intros H0 H1. split.
  - apply Qle_shift_div_l; lra.
  - apply Qlt_shift_div_r; lra.
Qed.

(** X13: for a time that is not negative, a positive duration and two or
    more waypoints, playback returns a position and raises nothing: the
    interpolation between two consecutive waypoints [k] and [k+1] at a local
    progress in [0, 1), where [k] plus the local progress is the elapsed
    share of the period times the number of segments. *)
Theorem playback_between_waypoints (ds : DroneSequence) (t d : Q)
  (Hduration : duration ds = Fin d)
  (Hd : (0 < d)%Q) (Ht : (0 <= t)%Q)
  (Hpoints : (2 <= length (points ds))%nat) :
  exists (k : nat) (cp np : DronePoint) (lp : Q),
    nth_error (points ds) k = Some cp /\
    nth_error (points ds) (S k) = Some np /\
    (0 <= lp)%Q /\ (lp < 1)%Q /\
    (inject_Z (Z.of_nat k) + lp
     == (t - d * inject_Z (Qfloor (t / d))) / d
        * (inject_Z (Z.of_nat (length (points ds))) - 1))%Q /\
    getCurrentPosition (Some ds) (Fin t)
    = Some (lerp3 (dronePosition cp) (dronePosition np) (Fin lp)).
Proof.
  destruct (rem_bounds t d Ht Hd) as (r & Hrem & Hr0 & Hr1 & Er).
  destruct (progress_bounds r d Hr0 Hr1) as [Hp0 Hp1].
  set (n := length (points ds)) in *.
  set (w := (inject_Z (Z.of_nat n) + - (1))%Q).
  assert (Hw : (w == inject_Z (Z.of_nat n - 1))%Q).
  { unfold w. unfold Z.sub. rewrite inject_Z_plus. reflexivity. }
  destruct (floor_of_progress (r / d) w (Z.of_nat n - 1) Hp0 Hp1
              ltac:(lia) Hw) as ((HK0 & HK1) & Hl0 & Hl1).
  set (q := (r / d * w)%Q) in *.
  set (K := Qfloor q) in *.
  destruct (nth_error_below (points ds) (Z.to_nat K)) as [cp Hcp]; [fold n; lia|].
  destruct (nth_error_below (points ds) (S (Z.to_nat K))) as [np Hnp];
    [fold n; lia|].
  exists (Z.to_nat K), cp, np, (q - inject_Z K)%Q.
  split; [exact Hcp|]. split; [exact Hnp|]. split; [exact Hl0|].
  split; [exact Hl1|]. split.
  { rewrite Z2Nat.id by lia. unfold q, w. rewrite <- Er. unfold n. ring. }
  unfold getCurrentPosition. fold n.
  assert (E0 : (n =? 0)%nat = false) by (apply Nat.eqb_neq; lia).
  assert (E1 : (n =? 1)%nat = false) by (apply Nat.eqb_neq; lia).
  rewrite E0, E1. cbv zeta.
  rewrite Hduration, Hrem, (div_Fin r d) by lra.
  change (Fin (r / d) * (of_nat n - 1)) with (Fin q).
  change (Math_floor (Fin q)) with (Fin (inject_Z K)).
  change (Fin q - Fin (inject_Z K)) with (Fin (q - inject_Z K)).
  rewrite (index_nat (points ds) K (inject_Z K)) by (lia || reflexivity).
  rewrite Hcp. cbn [or_else].
  change (Fin (inject_Z K) + 1) with (Fin (inject_Z K + 1)).
  rewrite (index_nat (points ds) (K + 1) (inject_Z K + 1)).
  - rewrite Z2Nat.inj_add by lia. rewrite Nat.add_1_r.
    change (Z.to_nat 1) with 1%nat. rewrite Hnp. reflexivity.
  - lia.
  - rewrite inject_Z_plus. reflexivity.
Qed.

Lemma playback_between_waypoints_witness :
  duration seqA = Fin 3000 /\
  exists pos, getCurrentPosition (Some seqA) (Fin 2250) = Some pos.
Proof.
  split; [reflexivity|].
  destruct (playback_between_waypoints seqA 2250 3000 eq_refl)
    as (k & cp & np & lp & _ & _ & _ & _ & _ & E).
  - reflexivity.
  - discriminate.
  - cbn. lia.
  - exists (lerp3 (dronePosition cp) (dronePosition np) (Fin lp)). exact E.
Defined.

(** X14: the playback clock stays inside the period: from a local time that
    is not negative, a tick over a sequence of positive duration gives a
    time that is at least 0 and below the duration. *)
Theorem tick_within_duration (ds : DroneSequence) (prev d : Q)
  (Hduration : duration ds = Fin d)
  (Hd : (0 < d)%Q) (Hprev : (0 <= prev)%Q) :
  exists next : Q,
    tick (Some ds) (Fin prev) = Fin next /\ (0 <= next)%Q /\ (next < d)%Q.
Proof.
  unfold tick. rewrite Hduration.
  change (Fin prev + 50) with (Fin (prev + 50)).
  destruct (rem_bounds (prev + 50) d ltac:(lra) Hd) as (r & E & H0 & H1 & _).
  exists r. repeat split; assumption.
Qed.

Lemma tick_within_duration_witness :
  duration seqA = Fin 3000 /\ tick (Some seqA) (Fin 2980) = Fin (30 # 1).
Proof.
  split; [reflexivity|].
  destruct (tick_within_duration seqA 2980 3000 eq_refl)
    as (next & E & _ & _).
  - reflexivity.
  - discriminate.
  - reflexivity.
Defined.

Lemma index_In {A : Type} (l : list A) (i : number) (v : A) :
  index l i = Some v -> In v l.
Proof.
  unfold index. destruct i as [a| | |]; try discriminate.
  destruct (_ && _); [|discriminate].
  apply nth_error_In.
Qed.

Lemma index_zero {A : Type} (v : A) (l : list A) : index (v :: l) 0 = Some v.
Proof. reflexivity. Qed.

(** X15: the colour lookup never fails, whatever the time and the duration
    are (negative, zero, not a number): without a sequence or without
    waypoints it gives "#ff0000", and else the colour of one of the
    waypoints of the sequence. *)
Theorem getCurrentColor_total (shown : option DroneSequence) (t : number) :
  exists c,
    getCurrentColor shown t = Some c /\
    match shown with
    | None => c = "#ff0000"%string
    | Some ds =>
        match points ds with
        | [] => c = "#ff0000"%string
        | _ :: _ => exists p, In p (points ds) /\ color p = c
        end
    end.
Proof.
  destruct shown as [ds|]; [|exists "#ff0000"%string; split; reflexivity].
  unfold getCurrentColor.
  destruct (points ds) as [|p0 rest] eqn:E.
  - exists "#ff0000"%string. split; reflexivity.
  - cbn [length Nat.eqb]. cbv zeta.
    set (i := Math_floor _).
    destruct (index (p0 :: rest) i) as [p|] eqn:Ei.
    + exists (color p). split; [reflexivity|].
      exists p. split; [exact (index_In _ _ _ Ei) | reflexivity].
    + exists (color p0). split; [reflexivity|].
      exists p0. split; [left; reflexivity | reflexivity].
Qed.



(** X17: without a sequence or without waypoints playback rests at the
    default position (0, 3, 0), and with a single waypoint at that
    waypoint's position, whatever the time and the duration are, a zero
    duration included. *)
Theorem getCurrentPosition_degenerate (t : number) :
  getCurrentPosition None t = Some (0, 3, 0) /\
  (forall ds, points ds = [] ->
              getCurrentPosition (Some ds) t = Some (0, 3, 0)) /\
  (forall ds p, points ds = [p] ->
                getCurrentPosition (Some ds) t = Some (dronePosition p)).
Proof.
  split; [reflexivity|]. split.
  - intros ds E. unfold getCurrentPosition. rewrite E. reflexivity.
  - intros ds p E. unfold getCurrentPosition. rewrite E. reflexivity.
Qed.

Lemma rem_zero (v : number) : v mod 0 = NaN.
Proof. destruct v; reflexivity. Qed.

(** X18: with two or more waypoints and a duration of 0, playback has no
    next waypoint to read and raises the error, at every time: the
    remainder by 0 is not a number, and no waypoint stands at that index
    nor at the one after it. *)
Theorem getCurrentPosition_zero_duration (ds : DroneSequence) (t : number)
  (Hduration : duration ds = 0)
  (Hpoints : (2 <= length (points ds))%nat) :
  getCurrentPosition (Some ds) t = None.
Proof.
  unfold getCurrentPosition.
  destruct (points ds) as [|p0 [|p1 rest]] eqn:E; cbn in Hpoints; try lia.
  cbn [length Nat.eqb]. cbv zeta.
  rewrite Hduration, rem_zero. reflexivity.
Qed.

Lemma getCurrentPosition_zero_duration_witness :
  duration (spread seqB {| id_opt := None; name_opt := None;
                           points_opt := None; duration_opt := Some 0 |}) = 0 /\
  getCurrentPosition
    (Some (spread seqB {| id_opt := None; name_opt := None;
                          points_opt := None; duration_opt := Some 0 |}))
    100 = None.
Proof.
  split; [reflexivity|].
  apply getCurrentPosition_zero_duration; [reflexivity | cbn; lia].
Defined.

(* ------------------------------------------------------------------ *)
(** ** The rendered path of a sequence without corrupt waypoints *)

Lemma filter_all {A : Type} (f : A -> bool) (l : list A) :
  Forall (fun v => f v = true) l -> filter f l = l.
Proof.
  induction 1 as [|v l Hv _ IH]; cbn; [reflexivity|].
  rewrite Hv, IH. reflexivity.
Qed.

Lemma mapi_from_markers (pts : list DronePoint) :
  forall (before : list DronePoint),
    mapi_from (length before)
      (fun idx pt => {| position := pt;
                        markerColor :=
                          option_map color
                            (nth_error (before ++ pts)%list idx);
                        label := idx + 1 |})
      (map displayCoordinates pts)
    = mapi_from (length before)
        (fun idx p => {| position := displayCoordinates p;
                         markerColor := Some (color p);
                         label := idx + 1 |})
        pts.
Proof.
  induction pts as [|p pts IH]; intros before; cbn [map mapi_from];
    [reflexivity|].
  f_equal.
  - rewrite nth_error_app2 by lia. rewrite Nat.sub_diag. reflexivity.
  - specialize (IH (before ++ [p])%list).
    rewrite length_app, Nat.add_1_r in IH.
    rewrite <- app_assoc in IH. exact IH.
Qed.

(** X19: when every waypoint of a sequence of two or more has finite
    coordinates, the path is drawn through all of them in order, and marker
    number [k] (counting from 1) stands at waypoint [k] and has its
    colour. *)
Theorem FlightPath_all_finite (sequence : DroneSequence) (isActive : bool)
  (Hfinite : Forall finiteCoordinates (points sequence))
  (Hpoints : (2 <= length (points sequence))%nat) :
  exists grp,
    FlightPath sequence isActive = Some grp /\
    line grp = map displayCoordinates (points sequence) /\
    markers grp
    = mapi (fun idx p => {| position := displayCoordinates p;
                            markerColor := Some (color p);
                            label := idx + 1 |})
           (points sequence).
Proof.
  unfold FlightPath.
  assert (Hall : filter isFinitePoint
                   (map displayCoordinates (points sequence))
                 = map displayCoordinates (points sequence)).
  { apply filter_all, Forall_map.
    eapply Forall_impl; [|exact Hfinite].
    intros p Hp. rewrite displayCoordinates_finite.
    unfold finiteCoordinates in Hp.
    destruct (isFinite (x p)), (isFinite (y p)), (isFinite (z p));
      cbn in *; congruence. }
  rewrite Hall, length_map.
  assert (E : (length (points sequence) <? 2)%nat = false)
    by (apply Nat.ltb_ge; exact Hpoints).
  rewrite E. eexists. split; [reflexivity|]. cbn [line markers].
  split; [reflexivity|].
  exact (mapi_from_markers (points sequence) []).
Qed.

Lemma FlightPath_all_finite_witness :
  Forall finiteCoordinates (points seqA) /\
  exists grp, FlightPath seqA true = Some grp /\ length (markers grp) = 3%nat.
Proof.
  assert (Hfinite : Forall finiteCoordinates (points seqA))
    by (repeat constructor).
  split; [exact Hfinite|].
  destruct (FlightPath_all_finite seqA true Hfinite) as (grp & E & _ & Em).
  - cbn. lia.
  - exists grp. split; [exact E|]. rewrite Em. reflexivity.
Defined.

(* ------------------------------------------------------------------ *)
(** ** The range of the colour conversion *)

Lemma round_channel (v m : Q) :
  (0 <= v + m)%Q -> (v + m <= 1)%Q ->
  channel (Math_round ((Fin v + Fin m) * 255)).
Proof.
  intros H0 H1.
  change ((Fin v + Fin m) * 255) with (Fin ((v + m) * 255)).
  cbn [Math_round].
  set (y := ((v + m) * 255 + (1 # 2))%Q).
  exists (Qfloor y). split; [reflexivity|].
  pose proof (Qfloor_le y) as Hle.
  assert (Hy0 : (0 <= y)%Q) by (unfold y; lra).
  assert (Hy1 : (y < 256)%Q) by (unfold y; lra).
  split.
  - apply (Qfloor_resp_le 0%Q y) in Hy0. exact Hy0.
  - assert (Hlt : (Qfloor y < 256)%Z).
    { rewrite Zlt_Qlt. change (inject_Z 256) with 256%Q. lra. }
    lia.
Qed.

Lemma Qabs_bounds (a : Q) :
  (0 <= Qabs a)%Q /\ (a <= Qabs a)%Q /\ (- a <= Qabs a)%Q.
Proof.
  split; [apply Qabs_nonneg|]. split; [apply Qle_Qabs|].
  rewrite <- Qabs_opp. apply Qle_Qabs.
Qed.

Lemma Qabs_unit (a : Q) : (-1 <= a)%Q -> (a <= 1)%Q -> (Qabs a <= 1)%Q.
Proof. intros H0 H1. apply Qabs_Qle_condition. split; lra. Qed.

(** X20: for a hue from 0 up to but not including 360 and a saturation and
    a lightness between 0 and 100, each of the three channels is an integer
    between 0 and 255. *)
Theorem hslToRgb_channels (h s l : Q)
  (Hh0 : (0 <= h)%Q) (Hh1 : (h < 360)%Q)
  (Hs0 : (0 <= s)%Q) (Hs1 : (s <= 100)%Q)
  (Hl0 : (0 <= l)%Q) (Hl1 : (l <= 100)%Q) :
  channels (hslToRgb (Fin h) (Fin s) (Fin l)).
Proof.
  unfold hslToRgb. cbv zeta.
  set (h' := (h / 360)%Q). set (s' := (s / 100)%Q). set (l' := (l / 100)%Q).
  change (Fin h / 360) with (Fin h').
  change (Fin s / 100) with (Fin s').
  change (Fin l / 100) with (Fin l').
  assert (Bh : (0 <= h')%Q /\ (h' < 1)%Q).
  { unfold h'. split; [apply Qle_shift_div_l | apply Qlt_shift_div_r]; lra. }
  assert (Bs : (0 <= s')%Q /\ (s' <= 1)%Q).
  { unfold s'. split; [apply Qle_shift_div_l | apply Qle_shift_div_r]; lra. }
  assert (Bl : (0 <= l')%Q /\ (l' <= 1)%Q).
  { unfold l'. split; [apply Qle_shift_div_l | apply Qle_shift_div_r]; lra. }
  set (A := Qabs (2 * l' - 1)).
  destruct (Qabs_bounds (2 * l' - 1)) as (A0 & A1 & A2). fold A in A0, A1, A2.
  assert (A3 : (A <= 1)%Q) by (apply Qabs_unit; lra).
  set (c := ((1 - A) * s')%Q).
  change ((1 - Math_abs (2 * Fin l' - 1)) * Fin s') with (Fin c).
  assert (Bc : (0 <= c)%Q /\ (c <= 1 - A)%Q) by (unfold c; split; nra).
  change (Fin h' * 6) with (Fin (h' * 6)).
  destruct (rem_bounds (h' * 6) 2 ltac:(lra) ltac:(lra))
    as (rm & Erm & Rm0 & Rm1 & _).
  rewrite Erm.
  set (B := Qabs (rm - 1)).
  destruct (Qabs_bounds (rm - 1)) as (B0 & _ & _). fold B in B0.
  assert (B1 : (B <= 1)%Q) by (apply Qabs_unit; lra).
  set (x' := (c * (1 - B))%Q).
  change (Fin c * (1 - Math_abs (Fin rm - 1))) with (Fin x').
  assert (Bx : (0 <= x')%Q /\ (x' <= c)%Q) by (unfold x'; split; nra).
  set (m := (l' - c / 2)%Q).
  change (Fin l' - Fin c / 2) with (Fin m).
  assert (Em : (m == l' - c * (1 # 2))%Q) by (unfold m; field).
  assert (Bm : (0 <= m)%Q /\ (m + c <= 1)%Q) by (split; lra).
  change 0 with (Fin 0).
  unfold channels.
  repeat match goal with
         | |- context [if ?cond then _ else _] => destruct cond
         end;
    cbn [r g b]; repeat split; apply round_channel; lra.
Qed.

Lemma hslToRgb_channels_witness :
  channels (hslToRgb 217 63 41).
Proof.
  apply (hslToRgb_channels 217 63 41); (reflexivity || discriminate).
Defined.




(* ------------------------------------------------------------------ *)
(** ** What the generators produce *)

Section Generated.

Variable Number_toString : number -> string.
Variable Math_cos Math_sin : number -> number.
Variable Math_PI : number.
Variable flight : FlightSettings.t.
Variable led : LedSettings.t.
Variable now : number.
Variable timeString : string.

(** X22: whatever the settings, the clock and the [Math] functions are, the
    circle has 12 waypoints at 0, 1000, ..., 11000 ms, the figure-8 20 at
    steps of 800, the spiral 24 at steps of 600, and the formation 12, four
    at steps of 200 from each of 0, 4000 and 8000: timestamps start at 0 and
    strictly increase along each sequence. *)
Theorem generated_timestamps :
  map timestamp
    (points (circlePattern Number_toString Math_cos Math_sin Math_PI flight
               led now timeString))
  = map (fun k => of_nat k * 1000) (seq 0 12) /\
  map timestamp
    (points (figure8Pattern Number_toString Math_sin Math_PI flight led now
               timeString))
  = map (fun k => of_nat k * 800) (seq 0 20) /\
  map timestamp
    (points (spiralPattern Number_toString Math_cos Math_sin Math_PI flight
               led now timeString))
  = map (fun k => of_nat k * 600) (seq 0 24) /\
  map timestamp
    (points (formationPattern Number_toString flight led now timeString))
  = [0; 200; 400; 600; 4000; 4200; 4400; 4600; 8000; 8200; 8400; 8600].
Proof.
  repeat split; vm_compute; reflexivity.
Qed.

Lemma channelb_channel (v : number) : channelb v = true -> channel v.
Proof.
  destruct v as [[n [| |]]| | |]; cbn; try discriminate.
  intros H. apply andb_prop in H. destruct H as [H0 H1].
  exists n. split; [reflexivity | lia].
Qed.

Lemma channels_of_map_rgb (pts : list DronePoint) :
  forallb (fun c => channelb (r c) && channelb (g c) && channelb (b c))
          (map rgb pts) = true ->
  Forall (fun p => channels (rgb p)) pts.
Proof.
  intros H. rewrite forallb_forall in H. apply Forall_forall.
  intros p Hp. specialize (H (rgb p) (in_map rgb pts p Hp)).
  apply andb_prop in H. destruct H as [H Hb].
  apply andb_prop in H. destruct H as [Hr Hg].
  repeat split; apply channelb_channel; assumption.
Qed.

(** X23: every waypoint of every generated sequence carries three colour
    channels that are integers between 0 and 255, and the altitudes of the
    circle, the spiral and the formation are 15, from 5 rising below 30,
    and 20, 28 and 36 by formation. *)
Theorem generated_colours_and_altitudes :
  let circle := circlePattern Number_toString Math_cos Math_sin Math_PI
                  flight led now timeString in
  let figure8 := figure8Pattern Number_toString Math_sin Math_PI
                   flight led now timeString in
  let spiral := spiralPattern Number_toString Math_cos Math_sin Math_PI
                  flight led now timeString in
  let formation := formationPattern Number_toString flight led now
                     timeString in
  Forall (fun p => channels (rgb p))
         (points circle ++ points figure8 ++ points spiral
          ++ points formation) /\
  Forall (fun p => z p = 15) (points circle) /\
  Forall (fun p => (5 <=? z p) && (z p <? 30) = true) (points spiral) /\
  map z (points formation)
  = [20; 20; 20; 20; 28; 28; 28; 28; 36; 36; 36; 36].
Proof.
  cbv zeta. split; [|split; [|split]].
  - apply channels_of_map_rgb. vm_compute. reflexivity.
  - apply Forall_forall. intros p Hp.
    apply in_map_iff in Hp. destruct Hp as (k & <- & _). reflexivity.
  - apply Forall_forall. intros p Hp.
    apply (in_map z) in Hp.
    assert (Hall : forallb (fun v => (5 <=? v) && (v <? 30))
                     (map z (points (spiralPattern Number_toString Math_cos
                                       Math_sin Math_PI flight led now
                                       timeString))) = true)
      by (vm_compute; reflexivity).
    rewrite forallb_forall in Hall. exact (Hall _ Hp).
  - vm_compute. reflexivity.
Qed.

End Generated.

(* ------------------------------------------------------------------ *)
(** ** Clicked waypoints *)

(** X24: a click on the front plane at a finite height [cy] gives a
    waypoint whose altitude is a finite number that is never negative: it
    is [(300 - cy) / 3] for a click on the canvas or above it, and 0 for a
    click below the bottom edge; its [y] is the centre, 150.  A click on the
    top-down plane takes the altitude of the slider. *)
Theorem clicked_altitude (cx : number) (cy : Q) (altitude : number)
  (currentColor : string) (currentRgb : Rgb) (now : number) :
  let front := newPoint cx (Fin cy) true altitude currentColor currentRgb
                 now in
  let top := newPoint cx (Fin cy) false altitude currentColor currentRgb
               now in
  (exists v : Q,
      z front = Fin v /\ (0 <= v)%Q /\
      ((cy <= 300)%Q -> (v == (300 - cy) / 3)%Q) /\
      ((300 <= cy)%Q -> (v == 0)%Q)) /\
  y front == 150 /\
  z top = altitude /\ y top = Fin cy /\
  x front = cx /\ x top = cx.
Proof.
  cbv zeta. split; [|repeat (split; [reflexivity|]); reflexivity].
  cbn [z newPoint]. rewrite front_altitude_Fin.
  unfold Math_max. cbn [fold_left max2 leb].
  change (Qle_bool 0 0) with true. cbv iota.
  destruct (Qle_bool 0 ((300 - cy) / 3)) eqn:E.
  - apply Qle_bool_iff in E.
    exists ((300 - cy) / 3)%Q. split; [reflexivity|]. split; [exact E|].
    split; [intros _; reflexivity|].
    intros H. assert (H' : ((300 - cy) / 3 <= 0)%Q).
    { apply Qle_shift_div_r; lra. }
    lra.
  - exists 0%Q. split; [reflexivity|]. split; [lra|].
    assert (Hneg : ((300 - cy) / 3 < 0)%Q).
    { destruct (Qlt_le_dec ((300 - cy) / 3) 0) as [H | H]; [exact H|].
      apply Qle_bool_iff in H. congruence. }
    split; [|intros _; reflexivity].
    intros H. assert (H' : (0 <= (300 - cy) / 3)%Q).
    { apply Qle_shift_div_l; lra. }
    lra.
Qed.
